(** * Git Project Dashboard: the scan engine of [App.py]

    A shallow embedding of [App.py] and the properties of its probe
    ([get_git_info]), its lister ([scan_top_level]) and its table of rows
    ([rescan_folder], [scan_projects]).

    - A Python [str] is a Rocq [string] holding its UTF-8 encoding; [bytes]
      are [list byte].
    - A Python [dict] with string keys is a [gmap string pyval].
    - The file system and the [git] executable are a [World] of oracles;
      every call the program makes to them is appended to a trace.
    - Exceptions are the [Raise] case of [result].
    - Worker threads are a pool of small program counters, advanced one
      statement group at a time in any interleaving. *)

From Stdlib Require Import NArith Ascii String List Strings.Byte Bool Lia.
From stdpp Require Import base option list gmap strings fin_maps.
Import ListNotations.

Local Open Scope string_scope.
Local Open Scope list_scope.
Local Open Scope nat_scope.

(** ** Python strings *)

Module PyStr.

Definition byte_val (c : ascii) : N := N_of_ascii c.
Definition chr (n : N) : ascii := ascii_of_N n.

(** A UTF-8 continuation byte, [10xxxxxx]. *)
Definition is_continuation (c : ascii) : bool :=
  ((128 <=? byte_val c) && (byte_val c <? 192))%N.

Definition starts_with_continuation (s : string) : bool :=
  match s with
  | String c _ => is_continuation c
  | EmptyString => false
  end.

(** The characters of a string: each lead byte with the continuation
    bytes that follow it. *)
Fixpoint chars (s : string) : list string :=
  match s with
  | EmptyString => []
  | String c rest =>
      match chars rest with
      | ch :: tl =>
          if starts_with_continuation ch
          then String c ch :: tl
          else String c EmptyString :: ch :: tl
      | [] => [String c EmptyString]
      end
  end.

Definition unchars (l : list string) : string :=
  fold_right String.append EmptyString l.

(** The UTF-8 encoding of a code point. *)
Definition utf8 (cp : N) : string :=
  (if cp <? 0x80 then String (chr cp) EmptyString
   else if cp <? 0x800 then
     String (chr (0xC0 + cp / 64))
    (String (chr (0x80 + cp mod 64)) EmptyString)
   else if cp <? 0x10000 then
     String (chr (0xE0 + cp / 4096))
    (String (chr (0x80 + (cp / 64) mod 64))
    (String (chr (0x80 + cp mod 64)) EmptyString))
   else
     String (chr (0xF0 + cp / 262144))
    (String (chr (0x80 + (cp / 4096) mod 64))
    (String (chr (0x80 + (cp / 64) mod 64))
    (String (chr (0x80 + cp mod 64)) EmptyString))))%N.

(** The code point a character's bytes stand for, read off by length. *)
Definition ord (ch : string) : option N :=
  match map byte_val (list_ascii_of_string ch) with
  | [a] => Some a
  | [a; b] => Some ((a mod 32) * 64 + b mod 64)%N
  | [a; b; c] => Some ((a mod 16) * 4096 + (b mod 64) * 64 + c mod 64)%N
  | [a; b; c; d] =>
      Some ((a mod 8) * 262144 + (b mod 64) * 4096 + (c mod 64) * 64 + d mod 64)%N
  | _ => None
  end.

(** A character is well formed when it is the encoding of a Unicode
    scalar value: shortest form, no surrogate, at most U+10FFFF. *)
Definition well_formed (ch : string) : bool :=
  match ord ch with
  | Some cp =>
      String.eqb (utf8 cp) ch
      && (cp <=? 0x10FFFF)%N
      && negb ((0xD800 <=? cp) && (cp <=? 0xDFFF))%N
  | None => false
  end.

(** [str.isspace] on one character: the code points CPython's
    [Py_UNICODE_ISSPACE] accepts. *)
Definition space_code_point (cp : N) : bool :=
  (((0x09 <=? cp) && (cp <=? 0x0D))
   || ((0x1C <=? cp) && (cp <=? 0x20))
   || (cp =? 0x85) || (cp =? 0xA0) || (cp =? 0x1680)
   || ((0x2000 <=? cp) && (cp <=? 0x200A))
   || (cp =? 0x2028) || (cp =? 0x2029) || (cp =? 0x202F)
   || (cp =? 0x205F) || (cp =? 0x3000))%N.

Definition isspace (ch : string) : bool :=
  match ord ch with
  | Some cp => space_code_point cp && String.eqb (utf8 cp) ch
  | None => false
  end.

Fixpoint drop_spaces (l : list string) : list string :=
  match l with
  | ch :: tl => if isspace ch then drop_spaces tl else l
  | [] => []
  end.

(** [s.strip()] *)
Definition strip (s : string) : string :=
  unchars (rev (drop_spaces (rev (drop_spaces (chars s))))).

(** [s.split()]: the maximal runs of non-space characters. *)
Fixpoint split_chars (cur : string) (l : list string) : list string :=
  match l with
  | [] => if String.eqb cur EmptyString then [] else [cur]
  | ch :: tl =>
      if isspace ch
      then (if String.eqb cur EmptyString then split_chars EmptyString tl
            else cur :: split_chars EmptyString tl)
      else split_chars (String.append cur ch) tl
  end.

Definition split (s : string) : list string :=
  split_chars EmptyString (chars s).

(** [" " * n] *)
Definition spaces (n : nat) : string := unchars (repeat " " n).

End PyStr.

(** ** [os.path] (POSIX flavour) *)

Module OsPath.

Definition startswith_sep (s : string) : bool :=
  match s with
  | String c _ => Ascii.eqb c "/"
  | EmptyString => false
  end.

Fixpoint endswith_sep (s : string) : bool :=
  match s with
  | EmptyString => false
  | String c EmptyString => Ascii.eqb c "/"
  | String _ rest => endswith_sep rest
  end.

(** [os.path.join(a, b)] *)
Definition join (a b : string) : string :=
  if startswith_sep b then b
  else if String.eqb a EmptyString || endswith_sep a then String.append a b
  else String.append a (String "/" b).

(** [os.path.basename(p)]: what follows the last separator. *)
Fixpoint basename (p : string) : string :=
  match p with
  | EmptyString => EmptyString
  | String c rest =>
      if existsb (Ascii.eqb "/") (list_ascii_of_string rest) then basename rest
      else if Ascii.eqb c "/" then rest
      else p
  end.

End OsPath.

(** ** Values, exceptions and the outside world *)

(** The values the program stores in its [info] dictionaries. *)
Inductive pyval :=
| VStr (s : string)
| VBool (b : bool).

Global Instance pyval_eq_dec : EqDecision pyval.
Proof. solve_decision. Defined.

Abbreviation dict := (gmap string pyval).

Inductive exn :=
| OSError
| CalledProcessError
| UnicodeDecodeError
| ValueError
| KeyError
| TypeError.

Inductive result (A : Type) :=
| Ok (a : A)
| Raise (e : exn).
Arguments Ok {A} a.
Arguments Raise {A} e.

(** What the program asks of the file system and of the [git] executable.
    [listdir] and [run_process] may raise; [path_exists] and [path_isdir]
    answer [False] instead, as [os.path.exists] and [os.path.isdir] do. *)
Record World := {
  path_exists : string -> bool;
  path_isdir : string -> bool;
  listdir : string -> result (list string);
  run_process : list string -> result (list byte);
}.

(** What a started thread was asked to do: the [task] closure of
    [rescan_folder], with the [info] it captured, or the one of
    [scan_projects], with its [root]. *)
Inductive target :=
| TRescan (info : dict)
| TSeed (root : string).

Global Instance target_eq_dec : EqDecision target.
Proof. solve_decision. Defined.

(** The calls made to the outside world and the threads started, in the
    order they happen. *)
Inductive event :=
| EvExists (p : string)
| EvIsDir (p : string)
| EvListDir (p : string)
| EvExec (argv : list string)
| EvThreadStart (t : target).

Global Instance event_eq_dec : EqDecision event.
Proof. solve_decision. Defined.

(** ** Computations: a trace of events and a result or an exception *)

Definition M (A : Type) : Type := list event -> result A * list event.

Global Instance M_ret : MRet M := λ A a tr, (Ok a, tr).

Global Instance M_bind : MBind M := λ A B f m tr,
  match m tr with
  | (Ok a, tr') => f a tr'
  | (Raise e, tr') => (Raise e, tr')
  end.

Definition emit (e : event) : M unit := λ tr, (Ok tt, tr ++ [e]).

Definition lift_result {A} (r : result A) : M A := λ tr, (r, tr).

(** [try: body except: handler] with a bare [except]. *)
Definition try_except {A} (body : M A) (handler : M A) : M A := λ tr,
  match body tr with
  | (Ok a, tr') => (Ok a, tr')
  | (Raise _, tr') => handler tr'
  end.

(** The value and the trace of a computation started on an empty trace. *)
Definition value_of {A} (m : M A) : result A := (m []).1.
Definition trace_of {A} (m : M A) : list event := (m []).2.

(** ** Python built-ins used on values *)

(** [bytes.decode()]: strict UTF-8. *)
Definition decode (bs : list byte) : result string :=
  let s := string_of_list_byte bs in
  if forallb PyStr.well_formed (PyStr.chars s) then Ok s
  else Raise UnicodeDecodeError.

(** Truth value of an optional string: [None] and [""] are false. *)
Definition truthy (x : option string) : bool :=
  match x with
  | Some s => negb (String.eqb s EmptyString)
  | None => false
  end.

(** [x or d] *)
Definition py_or (x : option string) (d : string) : string :=
  match x with
  | Some s => if String.eqb s EmptyString then d else s
  | None => d
  end.

(** ** Git Info Helper and Folder Scanning *)

Section Probe.

Context (w : World).

Definition os_path_exists (p : string) : M bool :=
  _ ← emit (EvExists p); mret (path_exists w p).

Definition os_path_isdir (p : string) : M bool :=
  _ ← emit (EvIsDir p); mret (path_isdir w p).

Definition os_listdir (p : string) : M (list string) :=
  _ ← emit (EvListDir p); lift_result (listdir w p).

Definition check_output (argv : list string) : M (list byte) :=
  _ ← emit (EvExec argv); lift_result (run_process w argv).

Definition git_argv (path cmd : string) : list string :=
  ["git"; "-C"; path] ++ PyStr.split cmd.

(** The inner helper [git(cmd)] of [get_git_info]. *)
Definition git (path cmd : string) : M (option string) :=
  try_except
    (out ← check_output (git_argv path cmd);
     s ← lift_result (decode out);
     mret (Some (PyStr.strip s)))
    (mret None).

Definition get_git_info (path : string) : M dict :=
  marker ← os_path_exists (OsPath.join path ".git");
  if negb marker then
    mret (<["path" := VStr path]> (<["is_git" := VBool false]> ∅))
  else
    branch ← git path "rev-parse --abbrev-ref HEAD";
    remote ← git path "remote get-url origin";
    status ← git path "status --porcelain";
    log ← git path "log -1 --format=%cd";
    let dirty := if negb (truthy status) then "Clean" else "Dirty" in
    mret (<["path" := VStr path]>
         (<["is_git" := VBool true]>
         (<["branch" := VStr (py_or branch "—")]>
         (<["remote" := VStr (py_or remote "—")]>
         (<["dirty" := VStr dirty]> ∅))))).

(** The list comprehension of [scan_top_level]: for each name, the
    [isdir] test, then the element. The entries of [get_git_info]'s
    result come last in the literal, so they win over the ["path"] entry
    written before them. *)
Fixpoint scan_entries (path : string) (names : list string) : M (list dict) :=
  match names with
  | [] => mret []
  | f :: rest =>
      d ← os_path_isdir (OsPath.join path f);
      if (d : bool) then
        info ← get_git_info (OsPath.join path f);
        tl ← scan_entries path rest;
        mret ((info ∪ {["path" := VStr (OsPath.join path f)]}) :: tl)
      else scan_entries path rest
  end.

Definition scan_top_level (path : string) : M (list dict) :=
  names ← os_listdir path;
  scan_entries path names.

End Probe.

(** ** Folder Row *)

(** A row object. [row_id] is the identity of the Python object: the table
    finds a row with [list.index], which compares objects that define no
    [__eq__] by identity. [label] and [git_mark] are the texts of the first
    two cells, computed once by [__init__]. *)
Record FolderRow := {
  row_id : nat;
  info : dict;
  level : nat;
  label : string;
  git_mark : string;
}.

(** [info["path"]] where a string is expected. *)
Definition dict_path (d : dict) : result string :=
  match d !! "path" with
  | Some (VStr p) => Ok p
  | Some (VBool _) => Raise TypeError
  | None => Raise KeyError
  end.

Definition truth (v : pyval) : bool :=
  match v with
  | VBool b => b
  | VStr s => negb (String.eqb s EmptyString)
  end.

(** [FolderRow(info, level, rescan_callback)], for the object allocated
    under identity [id]. *)
Definition FolderRow_init (id : nat) (info : dict) (level : nat) : result FolderRow :=
  let indent := PyStr.spaces (level * 4) in
  match dict_path info with
  | Raise e => Raise e
  | Ok p =>
      let name := OsPath.basename p in
      match info !! "is_git" with
      | None => Raise KeyError
      | Some g =>
          Ok {| row_id := id; info := info; level := level;
                label := String.append indent name;
                git_mark := if truth g then "✅" else "❌" |}
      end
  end.

(** ** The cells of a row *)

(** [info.get(key, default)] *)
Definition dict_get (d : dict) (key : string) (dflt : pyval) : pyval :=
  default dflt (d !! key).

(** What [FolderRow.__init__] puts in the cells besides the label and the
    mark: whether the arrow shows, the texts of the Branch, Remote and
    Status cells, and the colour of the last. *)
Definition arrow_visible (info : dict) : pyval :=
  dict_get info "has_subfolders" (VBool true).

Definition branch_text (info : dict) : pyval := dict_get info "branch" (VStr "").

Definition remote_text (info : dict) : pyval := dict_get info "remote" (VStr "").

Definition dirty_text (info : dict) : pyval := dict_get info "dirty" (VStr "").

Definition dirty_color (info : dict) : string :=
  if bool_decide (info !! "dirty" = Some (VStr "Clean")) then "green" else "red".

(** ** Main App *)

(** The widgets the scan code reads and writes: [data_table.rows],
    [root_input.value], [progress.visible], [status.value]; and the
    allocator of object identities. [page.update()] only redraws. *)
Record App := {
  rows : list FolderRow;
  root_input : string;
  progress_visible : bool;
  status_value : string;
  next_id : nat;
}.

Definition set_rows (a : App) (l : list FolderRow) : App :=
  {| rows := l; root_input := root_input a; progress_visible := progress_visible a;
     status_value := status_value a; next_id := next_id a |}.

Definition set_root_input (a : App) (s : string) : App :=
  {| rows := rows a; root_input := s; progress_visible := progress_visible a;
     status_value := status_value a; next_id := next_id a |}.

Definition set_progress (a : App) (b : bool) : App :=
  {| rows := rows a; root_input := root_input a; progress_visible := b;
     status_value := status_value a; next_id := next_id a |}.

Definition set_status (a : App) (s : string) : App :=
  {| rows := rows a; root_input := root_input a; progress_visible := progress_visible a;
     status_value := s; next_id := next_id a |}.

Definition bump_id (a : App) : App :=
  {| rows := rows a; root_input := root_input a; progress_visible := progress_visible a;
     status_value := status_value a; next_id := S (next_id a) |}.

(** [l.index(x)] by object identity; [None] stands for [ValueError]. *)
Fixpoint index_of (id : nat) (l : list FolderRow) : option nat :=
  match l with
  | [] => None
  | r :: tl => if Nat.eqb (row_id r) id then Some 0 else S <$> index_of id tl
  end.

(** [l.insert(i, x)] for [i >= 0]: before position [i], or at the end when
    [i] is past it. *)
Definition list_insert_at {A} (i : nat) (x : A) (l : list A) : list A :=
  take i l ++ x :: drop i l.

(** A worker thread between two of its statement groups. The first three
    are the [task] of [rescan_folder] (lines 165-167, 169, 170), then its
    loop (172-175) and, on an empty rest, its last lines (177-179); the
    others are the [task] of [scan_projects] (192-194, 196, 197-198 and
    200-202). *)
Inductive thread :=
| RescanBegin (info : dict) (row_obj : FolderRow)
| RescanList (info : dict) (row_obj : FolderRow)
| RescanIndex (info : dict) (row_obj : FolderRow) (subfolders : list dict)
| RescanInsert (info : dict) (insert_index : nat) (todo : list dict)
| SeedBegin (root : string)
| SeedList (root : string)
| SeedAppend (todo : list dict).

Record State := {
  app : App;
  pool : list thread;
  trace : list event;
}.

(** One statement group of a worker: the new widgets, the thread's next
    point ([None] once it has returned or died of an uncaught exception)
    and the extended trace. *)
Definition thread_step (w : World) (t : thread) (a : App) (tr : list event)
  : App * option thread * list event :=
  match t with
  | RescanBegin info row_obj =>
      let a := set_progress a true in
      match dict_path info with
      | Raise _ => (a, None, tr)
      | Ok p =>
          (set_status a (String.append "Rescanning: "
                           (String.append (OsPath.basename p) "...")),
           Some (RescanList info row_obj), tr)
      end
  | RescanList info row_obj =>
      match dict_path info with
      | Raise _ => (a, None, tr)
      | Ok p =>
          match scan_top_level w p tr with
          | (Ok subfolders, tr') => (a, Some (RescanIndex info row_obj subfolders), tr')
          | (Raise _, tr') => (a, None, tr')
          end
      end
  | RescanIndex info row_obj subfolders =>
      match index_of (row_id row_obj) (rows a) with
      | None => (a, None, tr)
      | Some i => (a, Some (RescanInsert info (i + 1) subfolders), tr)
      end
  | RescanInsert info insert_index (sub_info :: rest) =>
      match FolderRow_init (next_id a) sub_info 1 with
      | Raise _ => (bump_id a, None, tr)
      | Ok new_row =>
          (set_rows (bump_id a) (list_insert_at insert_index new_row (rows a)),
           Some (RescanInsert info (insert_index + 1) rest), tr)
      end
  | RescanInsert info _ [] =>
      let a := set_progress a false in
      match dict_path info with
      | Raise _ => (a, None, tr)
      | Ok p =>
          (set_status a (String.append "✅ Finished " (OsPath.basename p)), None, tr)
      end
  | SeedBegin root =>
      (set_status (set_progress a true) "Scanning top-level projects...",
       Some (SeedList root), tr)
  | SeedList root =>
      match scan_top_level w root tr with
      | (Ok folders, tr') => (a, Some (SeedAppend folders), tr')
      | (Raise _, tr') => (a, None, tr')
      end
  | SeedAppend (info :: rest) =>
      match FolderRow_init (next_id a) info 0 with
      | Raise _ => (bump_id a, None, tr)
      | Ok new_row =>
          (set_rows (bump_id a) (rows a ++ [new_row]), Some (SeedAppend rest), tr)
      end
  | SeedAppend [] =>
      (set_status (set_progress a false) "✅ Scan complete", None, tr)
  end.

(** [rescan_folder(info, row_obj)]: start a thread on [task]. *)
Definition rescan_folder (info : dict) (row_obj : FolderRow) (s : State) : State :=
  {| app := app s;
     pool := pool s ++ [RescanBegin info row_obj];
     trace := trace s ++ [EvThreadStart (TRescan info)] |}.

(** [scan_projects(e)] *)
Definition scan_projects (w : World) (s : State) : State :=
  let a := set_rows (app s) [] in
  let root := PyStr.strip (root_input a) in
  match os_path_exists w root (trace s) with
  | (Ok true, tr) =>
      {| app := a;
         pool := pool s ++ [SeedBegin root];
         trace := tr ++ [EvThreadStart (TSeed root)] |}
  | (_, tr) =>
      {| app := set_status a "❌ Path not found"; pool := pool s; trace := tr |}
  end.

(** What can happen next: the operator presses Scan Projects, presses the
    arrow or Rescan button of the [i]-th row of the table (both call
    [rescan_callback(info, self)]), edits the Root Folder field, or the
    [t]-th live worker runs its next statement group. *)
Inductive action :=
| ClickScan
| ClickRescan (i : nat)
| TypeRoot (s : string)
| Run (t : nat).

Definition step (w : World) (act : action) (s : State) : option State :=
  match act with
  | ClickScan => Some (scan_projects w s)
  | ClickRescan i =>
      r ← rows (app s) !! i;
      Some (rescan_folder (info r) r s)
  | TypeRoot v =>
      Some {| app := set_root_input (app s) v; pool := pool s; trace := trace s |}
  | Run t =>
      th ← pool s !! t;
      match thread_step w th (app s) (trace s) with
      | (a, Some th', tr) => Some {| app := a; pool := <[t := th']> (pool s); trace := tr |}
      | (a, None, tr) => Some {| app := a; pool := delete t (pool s); trace := tr |}
      end
  end.

(** A run: each action is taken in the world as it is at that moment. *)
Fixpoint run (acts : list (World * action)) (s : State) : option State :=
  match acts with
  | [] => Some s
  | (w, act) :: rest => s' ← step w act s; run rest s'
  end.

(** The same in one unchanging world. *)
Definition run_in (w : World) (acts : list action) (s : State) : option State :=
  run (map (pair w) acts) s.

(** The application as [main] leaves it. *)
Definition initial : State :=
  {| app := {| rows := []; root_input := "D:\Projects"; progress_visible := false;
               status_value := EmptyString; next_id := 0 |};
     pool := [];
     trace := [] |}.

(** * Vocabulary of the properties *)

(** ** Reading the world and the trace *)

(** The text [git(cmd)] returns, read off the world. *)
Definition git_text (w : World) (path cmd : string) : option string :=
  match run_process w (git_argv path cmd) with
  | Ok out =>
      match decode out with
      | Ok s => Some (PyStr.strip s)
      | Raise _ => None
      end
  | Raise _ => None
  end.

(** The sub-queries of one probe, in the order they are made. *)
Definition probe_queries (path : string) : list event :=
  [EvExec (git_argv path "rev-parse --abbrev-ref HEAD");
   EvExec (git_argv path "remote get-url origin");
   EvExec (git_argv path "status --porcelain");
   EvExec (git_argv path "log -1 --format=%cd")].

(** A sub-query failed: the process raised, or its output did not decode. *)
Definition query_failed (w : World) (path cmd : string) : Prop :=
  ∀ out, run_process w (git_argv path cmd) = Ok out → ∃ e, decode out = Raise e.

(** The directory-type entries of [path], given the names it lists. *)
Definition child_directories (w : World) (path : string) (names : list string)
  : list string :=
  List.filter (path_isdir w) (map (OsPath.join path) names).

Definition is_probe (e : event) : bool :=
  match e with
  | EvExists _ => true
  | _ => false
  end.

Definition is_listing (p : string) (e : event) : bool :=
  match e with
  | EvListDir q => String.eqb p q
  | _ => false
  end.

(** Events a probe or the entry loop can add: no listing, no thread. *)
Definition quiet (e : event) : bool :=
  match e with
  | EvExists _ | EvIsDir _ | EvExec _ => true
  | EvListDir _ | EvThreadStart _ => false
  end.

Definition target_path (t : target) : option string :=
  match t with
  | TRescan info =>
      match dict_path info with
      | Ok p => Some p
      | Raise _ => None
      end
  | TSeed root => Some root
  end.

Definition is_start (p : string) (e : event) : bool :=
  match e with
  | EvThreadStart t =>
      match target_path t with
      | Some q => String.eqb p q
      | None => false
      end
  | _ => false
  end.

(** How often [p] was listed, and how many threads were started on it. *)
Definition listings (p : string) (tr : list event) : nat :=
  length (List.filter (is_listing p) tr).

Definition starts (p : string) (tr : list event) : nat :=
  length (List.filter (is_start p) tr).

(** The path a worker is going to list, while the listing is ahead of it. *)
Definition awaiting (t : thread) : option string :=
  match t with
  | RescanBegin info _ | RescanList info _ =>
      match dict_path info with
      | Ok p => Some p
      | Raise _ => None
      end
  | SeedBegin root | SeedList root => Some root
  | _ => None
  end.

Definition waits (p : string) (t : thread) : bool :=
  match awaiting t with
  | Some q => String.eqb p q
  | None => false
  end.

Definition pending (p : string) (l : list thread) : nat :=
  length (List.filter (waits p) l).

Definition waiting_count (p : string) (o : option thread) : nat :=
  match o with
  | Some t => if waits p t then 1 else 0
  | None => 0
  end.

(** A worker expanding [p] that has not returned yet. *)
Definition expanding (p : string) (t : thread) : bool :=
  match t with
  | RescanBegin info _ | RescanList info _
  | RescanIndex info _ _ | RescanInsert info _ _ =>
      match dict_path info with
      | Ok q => String.eqb p q
      | Raise _ => false
      end
  | _ => false
  end.

Definition is_run (a : action) : bool :=
  match a with
  | Run _ => true
  | _ => false
  end.

Definition is_click_scan (a : action) : bool :=
  match a with
  | ClickScan => true
  | _ => false
  end.

(** Every thread started on a path has listed it or is about to. *)
Definition balanced (s : State) : Prop :=
  ∀ p, listings p (trace s) + pending p (pool s) = starts p (trace s).

(** Row objects in the table are distinct, and older than the next one
    to be allocated. *)
Definition ids_fresh (a : App) : Prop :=
  NoDup (map row_id (rows a)) ∧ Forall (λ r, row_id r < next_id a) (rows a).

(** A dictionary [FolderRow] accepts: it has a string [path] and an
    [is_git] entry. *)
Definition row_ready (d : dict) : Prop :=
  (∃ p, dict_path d = Ok p) ∧ is_Some (d !! "is_git").

(** ** Worlds used as examples *)

(** The bytes a process writes for one line of text. *)
Definition stdout_line (s : string) : list byte :=
  list_byte_of_string (String.append s (String (ascii_of_nat 10) EmptyString)).

(** The tree of the end-to-end scenario: [/work] holds [a], a clean
    repository on [main] with a remote, [b], a repository with a modified
    file, [c], a plain directory, and a plain file; [a] holds a directory
    [x], which holds a directory [y]. *)
Definition work_world : World := {|
  path_exists := λ p,
    existsb (String.eqb p)
      ["/work"; "/work/a"; "/work/b"; "/work/c"; "/work/notes.txt";
       "/work/a/.git"; "/work/b/.git"; "/work/a/x"; "/work/a/x/y"];
  path_isdir := λ p,
    existsb (String.eqb p)
      ["/work"; "/work/a"; "/work/b"; "/work/c";
       "/work/a/.git"; "/work/b/.git"; "/work/a/x"; "/work/a/x/y"];
  listdir := λ p,
    if String.eqb p "/work" then Ok ["a"; "notes.txt"; "b"; "c"]
    else if String.eqb p "/work/a" then Ok [".git"; "x"]
    else if String.eqb p "/work/a/x" then Ok ["y"]
    else if String.eqb p "/work/a/x/y" then Ok []
    else if String.eqb p "/work/b" then Ok [".git"]
    else if String.eqb p "/work/c" then Ok []
    else Raise OSError;
  run_process := λ argv,
    match argv with
    | ["git"; "-C"; "/work/a"; "rev-parse"; "--abbrev-ref"; "HEAD"] =>
        Ok (stdout_line "main")
    | ["git"; "-C"; "/work/a"; "remote"; "get-url"; "origin"] =>
        Ok (stdout_line "git@host:org/a.git")
    | ["git"; "-C"; "/work/a"; "status"; "--porcelain"] => Ok []
    | ["git"; "-C"; "/work/b"; "rev-parse"; "--abbrev-ref"; "HEAD"] =>
        Ok (stdout_line "main")
    | ["git"; "-C"; "/work/b"; "status"; "--porcelain"] =>
        Ok (stdout_line " M tracked.txt")
    | _ => Raise CalledProcessError
    end;
|}.

(** A repository at [/repo] on a machine where every [git] call fails. *)
Definition broken_world : World := {|
  path_exists := λ p, String.eqb p "/repo" || String.eqb p "/repo/.git";
  path_isdir := λ p, String.eqb p "/repo" || String.eqb p "/repo/.git";
  listdir := λ p, if String.eqb p "/repo" then Ok [".git"] else Raise OSError;
  run_process := λ _, Raise CalledProcessError;
|}.

(** A repository at [/repo] whose branch query fails (no commit yet)
    while its remote and its status are read. *)
Definition unborn_world : World := {|
  path_exists := λ p, String.eqb p "/repo" || String.eqb p "/repo/.git";
  path_isdir := λ p, String.eqb p "/repo" || String.eqb p "/repo/.git";
  listdir := λ p, if String.eqb p "/repo" then Ok [".git"] else Raise OSError;
  run_process := λ argv,
    match argv with
    | ["git"; "-C"; "/repo"; "remote"; "get-url"; "origin"] =>
        Ok (stdout_line "git@host:org/r.git")
    | ["git"; "-C"; "/repo"; "status"; "--porcelain"] =>
        Ok (stdout_line "?? new.txt")
    | _ => Raise CalledProcessError
    end;
|}.

(** A linked working tree at [/wt]: its [.git] is a regular file. *)
Definition gitfile_world : World := {|
  path_exists := λ p, String.eqb p "/wt" || String.eqb p "/wt/.git";
  path_isdir := λ p, String.eqb p "/wt";
  listdir := λ p, if String.eqb p "/wt" then Ok [".git"] else Raise OSError;
  run_process := λ argv,
    match argv with
    | ["git"; "-C"; "/wt"; "rev-parse"; "--abbrev-ref"; "HEAD"] =>
        Ok (stdout_line "feature")
    | ["git"; "-C"; "/wt"; "status"; "--porcelain"] => Ok []
    | _ => Raise CalledProcessError
    end;
|}.

(** [/work] a while later: [x] is gone from [a], and [z] is new. *)
Definition changed_world : World := {|
  path_exists := λ p,
    existsb (String.eqb p)
      ["/work"; "/work/a"; "/work/b"; "/work/c"; "/work/notes.txt";
       "/work/a/.git"; "/work/b/.git"; "/work/a/z"];
  path_isdir := λ p,
    existsb (String.eqb p)
      ["/work"; "/work/a"; "/work/b"; "/work/c";
       "/work/a/.git"; "/work/b/.git"; "/work/a/z"];
  listdir := λ p,
    if String.eqb p "/work" then Ok ["a"; "notes.txt"; "b"; "c"]
    else if String.eqb p "/work/a" then Ok [".git"; "z"]
    else if String.eqb p "/work/a/z" then Ok []
    else if String.eqb p "/work/b" then Ok [".git"]
    else if String.eqb p "/work/c" then Ok []
    else Raise OSError;
  run_process := run_process work_world;
|}.

(** ** Sessions used as examples *)

(** The table after Scan Projects on [/work] has run to its end. *)
Definition seeded : State :=
  Eval vm_compute in
  default initial
    (run_in work_world
       [TypeRoot "/work"; ClickScan; Run 0; Run 0; Run 0; Run 0; Run 0; Run 0]
       initial).

Definition seeded_then_mistyped : State :=
  Eval vm_compute in
  default initial (run_in work_world [TypeRoot "/nonexistent"] seeded).

(** [a] expanded once: its entries [.git] and [x] follow it. *)
Definition expanded_a : State :=
  Eval vm_compute in
  default initial
    (run_in work_world
       [ClickRescan 0; Run 0; Run 0; Run 0; Run 0; Run 0; Run 0]
       seeded).

(** Then [x], the third row, expanded in turn. *)
Definition expanded_x : State :=
  Eval vm_compute in
  default initial
    (run_in work_world
       [ClickRescan 2; Run 0; Run 0; Run 0; Run 0; Run 0]
       expanded_a).

(** The first expansion of [a] has been requested and its worker has run
    its first statements: it is in flight and has listed nothing yet. *)
Definition expanding_a : State :=
  Eval vm_compute in
  default initial (run_in work_world [ClickRescan 0; Run 0] seeded).

(** The whole session of the counterexample, from the start of the
    application: seed [/work], request [a], let its worker begin, request
    [a] again, and let both workers finish. *)
Definition double_request : list action :=
  [TypeRoot "/work"; ClickScan; Run 0; Run 0; Run 0; Run 0; Run 0; Run 0;
   ClickRescan 0; Run 0; ClickRescan 0;
   Run 0; Run 1; Run 0; Run 1; Run 0; Run 0; Run 0; Run 0; Run 0; Run 0; Run 0].

Definition double_requested : State :=
  Eval vm_compute in
  default initial (run_in work_world double_request initial).

(** [a] expanded in [work_world], then again in [changed_world]. *)
Definition reexpanded_a : State :=
  Eval vm_compute in
  default initial
    (run_in changed_world (ClickRescan 0 :: repeat (Run 0) 6) expanded_a).

(** ** The claims that fail, as the specification words them *)

(** As the specification words the rule for the [clean] field: empty output
    is Clean, other output is Dirty, and a failed query is not Clean. *)
Definition spec_clean_rule (w : World) (path : string) : Prop :=
  path_exists w (OsPath.join path ".git") = true →
  ∀ d, value_of (get_git_info w path) = Ok d →
    match run_process w (git_argv path "status --porcelain") with
    | Ok [] => d !! "dirty" = Some (VStr "Clean")
    | Ok (_ :: _) => d !! "dirty" = Some (VStr "Dirty")
    | Raise _ => d !! "dirty" ≠ Some (VStr "Clean")
    end.

(** As the specification words the degradation: the field of a failed
    sub-query is absent or Unknown. *)
Definition spec_degraded (d : dict) (field : string) : Prop :=
  d !! field = None ∨ d !! field = Some (VStr "Unknown").

Definition spec_partial_degradation (w : World) (path : string) : Prop :=
  path_exists w (OsPath.join path ".git") = true →
  ∃ d, value_of (get_git_info w path) = Ok d
    ∧ (query_failed w path "rev-parse --abbrev-ref HEAD" → spec_degraded d "branch")
    ∧ (query_failed w path "remote get-url origin" → spec_degraded d "remote")
    ∧ (query_failed w path "status --porcelain" → spec_degraded d "dirty").

(** As the specification words the repository test: a metadata directory
    directly beneath the path. *)
Definition spec_repo_iff_metadata_directory (w : World) (path : string) : Prop :=
  ∀ d, value_of (get_git_info w path) = Ok d →
    (d !! "is_git" = Some (VBool true) ↔ path_isdir w (OsPath.join path ".git") = true).

(** As the specification words it: a seed whose root does not exist leaves
    the table as it was and starts no worker. *)
Definition spec_failed_seed_keeps_tree (w : World) (s : State) : Prop :=
  path_exists w (PyStr.strip (root_input (app s))) = false →
  rows (app (scan_projects w s)) = rows (app s)
  ∧ pool (scan_projects w s) = pool s.

(** As the specification words it: a request on a row whose expansion is
    still running starts no listing of its own, so that the workers, left
    to finish, list the row's directory at most once more. *)
Definition spec_expand_coalesced (w : World) (s : State) (i : nat) : Prop :=
  ∀ r p, rows (app s) !! i = Some r → dict_path (info r) = Ok p →
    existsb (expanding p) (pool s) = true →
    ∀ acts s', forallb is_run acts = true →
      run_in w (ClickRescan i :: acts) s = Some s' → pool s' = [] →
      listings p (trace s') ≤ listings p (trace s) + 1.

(** As the specification words it: a row is expanded in [w1] and, after
    its directory has changed, expanded again in [w2], each time to
    completion; the table then holds, besides the rows it had before the
    first expansion, only entries of the listing in [w2]. *)
Definition spec_reexpand_replaces (w1 w2 : World) (s0 : State) (i : nat) : Prop :=
  ∀ r p names n1 n2 s1 s2,
    rows (app s0) !! i = Some r → dict_path (info r) = Ok p →
    run_in w1 (ClickRescan i :: repeat (Run 0) n1) s0 = Some s1 → pool s1 = [] →
    listdir w2 p = Ok names →
    run_in w2 (ClickRescan i :: repeat (Run 0) n2) s1 = Some s2 → pool s2 = [] →
    ∀ r', r' ∈ rows (app s2) →
      r' ∈ rows (app s0)
      ∨ ∃ c, c ∈ child_directories w2 p names ∧ dict_path (info r') = Ok c.

(** ** Names of entries *)

(** A name without a separator, as [os.listdir] returns them. *)
Definition no_sep (f : string) : bool :=
  negb (existsb (Ascii.eqb "/") (list_ascii_of_string f)).

(** ** What a reachable state holds *)

(** The four queries of a probe. *)
Definition probe_commands : list string :=
  ["rev-parse --abbrev-ref HEAD"; "remote get-url origin";
   "status --porcelain"; "log -1 --format=%cd"].

(** A dictionary that a probe returned in one of the worlds [ws]. *)
Definition probed (ws : list World) (d : dict) : Prop :=
  ∃ w p, w ∈ ws ∧ value_of (get_git_info w p) = Ok d ∧ dict_path d = Ok p.

(** The dictionaries a worker still has to make rows of, and the
    dictionary of the row it expands. *)
Definition todo_of (t : thread) : list dict :=
  match t with
  | RescanIndex _ _ subfolders => subfolders
  | RescanInsert _ _ todo | SeedAppend todo => todo
  | _ => []
  end.

Definition expanded_info (t : thread) : option dict :=
  match t with
  | RescanBegin info _ | RescanList info _
  | RescanIndex info _ _ | RescanInsert info _ _ => Some info
  | _ => None
  end.

Definition thread_sound (ws : list World) (t : thread) : Prop :=
  Forall (probed ws) (todo_of t) ∧ ∀ d, expanded_info t = Some d → probed ws d.

(** A row as [FolderRow] builds it from a probe's result, at level 0 or 1. *)
Definition row_sound (ws : list World) (r : FolderRow) : Prop :=
  ∃ w p, w ∈ ws
    ∧ value_of (get_git_info w p) = Ok (info r)
    ∧ dict_path (info r) = Ok p
    ∧ level r ≤ 1
    ∧ label r = String.append (PyStr.spaces (level r * 4)) (OsPath.basename p)
    ∧ git_mark r = (if path_exists w (OsPath.join p ".git") then "✅" else "❌").

Definition sound (ws : list World) (s : State) : Prop :=
  Forall (row_sound ws) (rows (app s)) ∧ Forall (thread_sound ws) (pool s).

(** A process the scan engine may start: one of the four queries, with
    [-C c] for a directory [c] that holds a [.git] entry. *)
Definition exec_sound (ws : list World) (e : event) : Prop :=
  ∀ argv, e = EvExec argv →
    ∃ w c cmd, w ∈ ws
      ∧ path_isdir w c = true
      ∧ path_exists w (OsPath.join c ".git") = true
      ∧ cmd ∈ probe_commands
      ∧ argv = git_argv c cmd.

(** Scan Projects pressed on a regular file: its worker is about to list
    it. *)
Definition seeding_a_file : State :=
  Eval vm_compute in
  default initial
    (run_in work_world [TypeRoot "/work/notes.txt"; ClickScan; Run 0] initial).

(** ** A further world *)

(** [work_world] with a last commit in [a]: there the fourth query
    answers. *)
Definition logged_world : World := {|
  path_exists := path_exists work_world;
  path_isdir := path_isdir work_world;
  listdir := listdir work_world;
  run_process := λ argv,
    match argv with
    | ["git"; "-C"; "/work/a"; "log"; "-1"; "--format=%cd"] =>
        Ok (stdout_line "Mon Jan 1 00:00:00 2024 +0000")
    | _ => run_process work_world argv
    end;
|}.

(** * Properties *)

(** ** Computations only append to the trace *)

Lemma bind_run {A B} (m : M A) (f : A → M B) (tr : list event) :
  (m ≫= f) tr =
  match m tr with
  | (Ok a, tr') => f a tr'
  | (Raise e, tr') => (Raise e, tr')
  end.
Proof. reflexivity. Qed.

Lemma ret_run {A} (a : A) (tr : list event) : (mret a : M A) tr = (Ok a, tr).
Proof. reflexivity. Qed.

Lemma git_run (w : World) (path cmd : string) (tr : list event) :
  git w path cmd tr = (Ok (git_text w path cmd), tr ++ [EvExec (git_argv path cmd)]).
Proof.
  unfold git, git_text, try_except, check_output.
  rewrite !bind_run. unfold emit, lift_result. simpl.
  destruct (run_process w (git_argv path cmd)) as [out|e]; simpl; [|reflexivity].
  rewrite bind_run. destruct (decode out) as [s|e]; reflexivity.
Qed.

Lemma get_git_info_plain (w : World) (path : string) (tr : list event) :
  path_exists w (OsPath.join path ".git") = false →
  get_git_info w path tr =
    (Ok (<["path" := VStr path]> (<["is_git" := VBool false]> ∅)),
     tr ++ [EvExists (OsPath.join path ".git")]).
Proof.
  intros Hm. unfold get_git_info, os_path_exists.
  rewrite !bind_run. unfold emit. simpl. rewrite Hm. reflexivity.
Qed.

Lemma get_git_info_repo (w : World) (path : string) (tr : list event) :
  path_exists w (OsPath.join path ".git") = true →
  get_git_info w path tr =
    (Ok (<["path" := VStr path]>
        (<["is_git" := VBool true]>
        (<["branch" := VStr (py_or (git_text w path "rev-parse --abbrev-ref HEAD") "—")]>
        (<["remote" := VStr (py_or (git_text w path "remote get-url origin") "—")]>
        (<["dirty" := VStr (if negb (truthy (git_text w path "status --porcelain"))
                            then "Clean" else "Dirty")]> ∅))))),
     tr ++ EvExists (OsPath.join path ".git") :: probe_queries path).
Proof.
  intros Hm. unfold get_git_info, os_path_exists.
  rewrite !bind_run. unfold emit. simpl. rewrite Hm. simpl.
  rewrite !bind_run, git_run. rewrite !bind_run, git_run.
  rewrite !bind_run, git_run. rewrite !bind_run, git_run.
  rewrite ret_run. unfold probe_queries.
  rewrite <- !app_assoc. reflexivity.
Qed.

(** The probe returns a dictionary, whatever the world answers. *)
Lemma get_git_info_total (w : World) (path : string) (tr : list event) :
  ∃ d tr', get_git_info w path tr = (Ok d, tr ++ tr')
           ∧ d !! "path" = Some (VStr path)
           ∧ d !! "is_git" = Some (VBool (path_exists w (OsPath.join path ".git")))
           ∧ Forall (λ e, ∀ p, e ≠ EvListDir p) tr'.
Proof.
  destruct (path_exists w (OsPath.join path ".git")) eqn:Hm.
  - eexists _, _. split; [apply get_git_info_repo, Hm|].
    split; [reflexivity|]. split; [reflexivity|].
    unfold probe_queries. repeat constructor; discriminate.
  - eexists _, _. split; [apply get_git_info_plain, Hm|].
    split; [reflexivity|]. split; [reflexivity|].
    repeat constructor; discriminate.
Qed.

(** ** VCS probe *)

Lemma query_failed_text (w : World) (path cmd : string) :
  query_failed w path cmd ↔ git_text w path cmd = None.
Proof.
  unfold query_failed, git_text.
  destruct (run_process w (git_argv path cmd)) as [out|e].
  - destruct (decode out) as [s|e] eqn:Hd; split; try done.
    + intros H. destruct (H out eq_refl) as [e He]. rewrite Hd in He. discriminate.
    + intros _ out' [= <-]. rewrite Hd. eauto.
  - split; [done|]. intros _ out [=].
Qed.

Lemma text_nonempty (w : World) (path cmd : string) :
  truthy (git_text w path cmd) = true ↔
  ∃ out s, run_process w (git_argv path cmd) = Ok out ∧ decode out = Ok s
           ∧ PyStr.strip s ≠ EmptyString.
Proof.
  unfold git_text, truthy.
  destruct (run_process w (git_argv path cmd)) as [out|e].
  - destruct (decode out) as [s|e] eqn:Hd.
    + destruct (String.eqb_spec (PyStr.strip s) EmptyString) as [He|Hne]; simpl.
      * split; [done|]. intros (out' & s' & [= <-] & Hs & Hn).
        rewrite Hd in Hs. injection Hs as <-. done.
      * split; [|done]. intros _. exists out, s. done.
    + split; [done|]. intros (out' & s' & [= <-] & Hs & _).
      rewrite Hd in Hs. discriminate.
  - split; [done|]. intros (out' & s' & [=] & _).
Qed.

(** C1, counterexample: in [broken_world] the status query of the
    repository [/repo] raises, and the probe reports the tree as Clean. *)
Lemma failed_status_reported_clean : ¬ spec_clean_rule broken_world "/repo".
Proof.
  intros H. specialize (H eq_refl _ eq_refl). simpl in H. by apply H.
Qed.

(** C1, as amended: for a repository the [dirty] field is always "Clean" or
    "Dirty"; it is "Dirty" exactly when the status query succeeded and its
    output, decoded and stripped of surrounding white space, is not empty;
    in every other case, a failed query included, it is "Clean". *)
Theorem clean_unless_status_text (w : World) (path : string) :
  path_exists w (OsPath.join path ".git") = true →
  ∃ d, value_of (get_git_info w path) = Ok d
    ∧ (d !! "dirty" = Some (VStr "Clean") ∨ d !! "dirty" = Some (VStr "Dirty"))
    ∧ (d !! "dirty" = Some (VStr "Dirty") ↔
         ∃ out s, run_process w (git_argv path "status --porcelain") = Ok out
                  ∧ decode out = Ok s ∧ PyStr.strip s ≠ EmptyString)
    ∧ (d !! "dirty" = Some (VStr "Clean") ↔
         ¬ ∃ out s, run_process w (git_argv path "status --porcelain") = Ok out
                    ∧ decode out = Ok s ∧ PyStr.strip s ≠ EmptyString)
    ∧ (query_failed w path "status --porcelain" → d !! "dirty" = Some (VStr "Clean")).
Proof.
  intros Hm. eexists. split.
  { unfold value_of. by rewrite (get_git_info_repo w path [] Hm). }
  rewrite <- text_nonempty.
  rewrite !lookup_insert_ne, lookup_insert_eq by done.
  split; [|split; [|split]].
  - destruct (truthy _); simpl; [by right|by left].
  - destruct (truthy _); simpl; split; (done || discriminate).
  - destruct (truthy _); simpl; split; intros H; try done; try discriminate.
  - intros Hf. apply query_failed_text in Hf. by rewrite Hf.
Qed.

Lemma clean_unless_status_text_witness :
  ∃ d, value_of (get_git_info work_world "/work/b") = Ok d
       ∧ d !! "dirty" = Some (VStr "Dirty").
Proof.
  destruct (clean_unless_status_text work_world "/work/b" eq_refl)
    as (d & Hd & _ & Hdirty & _).
  exists d. split; [exact Hd|].
  apply Hdirty. eexists _, _. split; [reflexivity|]. split; [reflexivity|].
  vm_compute. discriminate.
Defined.

(** C5: for a directory without a [.git] entry the probe returns
    [is_git] false and a dictionary with no [branch], [remote] or [dirty]
    entry: its only keys are [path] and [is_git]. *)
Theorem plain_directory_has_no_git_fields (w : World) (path : string) (tr : list event) :
  path_exists w (OsPath.join path ".git") = false →
  ∃ d tr', get_git_info w path tr = (Ok d, tr')
    ∧ d !! "is_git" = Some (VBool false)
    ∧ d !! "branch" = None ∧ d !! "remote" = None ∧ d !! "dirty" = None
    ∧ dom d = {["path"; "is_git"]}.
Proof.
  intros Hm. eexists _, _. split; [apply get_git_info_plain, Hm|].
  repeat split; try reflexivity;
    rewrite !dom_insert_L, dom_empty_L; set_solver.
Qed.

Lemma plain_directory_has_no_git_fields_witness :
  ∃ d tr', get_git_info work_world "/work/c" [] = (Ok d, tr')
    ∧ d !! "is_git" = Some (VBool false)
    ∧ d !! "branch" = None ∧ d !! "remote" = None ∧ d !! "dirty" = None
    ∧ dom d = {["path"; "is_git"]}.
Proof.
  apply (plain_directory_has_no_git_fields work_world "/work/c" []).
  reflexivity.
Defined.

(** C7, counterexample: in [broken_world] the status query of [/repo]
    fails and its field is neither absent nor Unknown: it reads "Clean". *)
Lemma failed_status_field_not_degraded : ¬ spec_partial_degradation broken_world "/repo".
Proof.
  intros H. destruct (H eq_refl) as (d & Hd & _ & _ & Hs).
  injection Hd as <-.
  destruct Hs as [Hs|Hs]; [intros out [=]|discriminate Hs|discriminate Hs].
Qed.

(** C7, as amended: the probe returns a dictionary for every directory,
    and never raises. For a repository a failed sub-query changes only its
    own field: a failed branch or remote query leaves the placeholder "—",
    a failed status query leaves "Clean", and the last-commit query has no
    field at all. Each field is read from its own query alone: a query
    that answers gives its field whatever the other queries did, and the
    field is the same in any two worlds that agree on its query. *)
Theorem failed_queries_leave_defaults (w : World) (path : string) :
  ∃ d, value_of (get_git_info w path) = Ok d
    ∧ d !! "is_git" = Some (VBool (path_exists w (OsPath.join path ".git")))
    ∧ (path_exists w (OsPath.join path ".git") = true →
         (query_failed w path "rev-parse --abbrev-ref HEAD" →
            d !! "branch" = Some (VStr "—"))
         ∧ (query_failed w path "remote get-url origin" →
            d !! "remote" = Some (VStr "—"))
         ∧ (query_failed w path "status --porcelain" →
            d !! "dirty" = Some (VStr "Clean"))
         ∧ dom d = {["path"; "is_git"; "branch"; "remote"; "dirty"]}
         ∧ (∀ out s,
              run_process w (git_argv path "rev-parse --abbrev-ref HEAD") = Ok out →
              decode out = Ok s → PyStr.strip s ≠ EmptyString →
              d !! "branch" = Some (VStr (PyStr.strip s)))
         ∧ (∀ out s,
              run_process w (git_argv path "remote get-url origin") = Ok out →
              decode out = Ok s → PyStr.strip s ≠ EmptyString →
              d !! "remote" = Some (VStr (PyStr.strip s)))
         ∧ (∀ out s,
              run_process w (git_argv path "status --porcelain") = Ok out →
              decode out = Ok s →
              d !! "dirty"
              = Some (VStr (if String.eqb (PyStr.strip s) EmptyString
                            then "Clean" else "Dirty")))
         ∧ (∀ w' d',
              path_exists w' (OsPath.join path ".git") = true →
              value_of (get_git_info w' path) = Ok d' →
              d' !! "path" = d !! "path"
              ∧ d' !! "is_git" = d !! "is_git"
              ∧ (run_process w' (git_argv path "rev-parse --abbrev-ref HEAD")
                 = run_process w (git_argv path "rev-parse --abbrev-ref HEAD") →
                 d' !! "branch" = d !! "branch")
              ∧ (run_process w' (git_argv path "remote get-url origin")
                 = run_process w (git_argv path "remote get-url origin") →
                 d' !! "remote" = d !! "remote")
              ∧ (run_process w' (git_argv path "status --porcelain")
                 = run_process w (git_argv path "status --porcelain") →
                 d' !! "dirty" = d !! "dirty"))).
Proof.
  destruct (path_exists w (OsPath.join path ".git")) eqn:Hm.
  - eexists. split.
    { unfold value_of. by rewrite (get_git_info_repo w path [] Hm). }
    split; [reflexivity|]. intros _.
    rewrite !query_failed_text.
    split; [|split; [|split; [|split; [|split; [|split; [|split]]]]]].
    + intros ->. reflexivity.
    + intros ->. reflexivity.
    + intros ->. reflexivity.
    + rewrite !dom_insert_L, dom_empty_L. set_solver.
    + intros out s Hrun Hdec Hne.
      change (Some (VStr (py_or (git_text w path "rev-parse --abbrev-ref HEAD") "—"))
              = Some (VStr (PyStr.strip s))).
      unfold git_text. rewrite Hrun, Hdec. cbn [py_or].
      by destruct (String.eqb_spec (PyStr.strip s) EmptyString).
    + intros out s Hrun Hdec Hne.
      change (Some (VStr (py_or (git_text w path "remote get-url origin") "—"))
              = Some (VStr (PyStr.strip s))).
      unfold git_text. rewrite Hrun, Hdec. cbn [py_or].
      by destruct (String.eqb_spec (PyStr.strip s) EmptyString).
    + intros out s Hrun Hdec.
      change (Some (VStr (if negb (truthy (git_text w path "status --porcelain"))
                          then "Clean" else "Dirty"))
              = Some (VStr (if String.eqb (PyStr.strip s) EmptyString
                            then "Clean" else "Dirty"))).
      unfold git_text. rewrite Hrun, Hdec. cbn [truthy].
      by destruct (String.eqb (PyStr.strip s) EmptyString).
    + intros w' d' Hm' Hv'. unfold value_of in Hv'.
      rewrite (get_git_info_repo w' path [] Hm') in Hv'. injection Hv' as <-.
      split; [reflexivity|]. split; [reflexivity|].
      split; [|split].
      * intros Heq.
        change (Some (VStr (py_or (git_text w' path "rev-parse --abbrev-ref HEAD") "—"))
                = Some (VStr (py_or (git_text w path "rev-parse --abbrev-ref HEAD") "—"))).
        unfold git_text. by rewrite Heq.
      * intros Heq.
        change (Some (VStr (py_or (git_text w' path "remote get-url origin") "—"))
                = Some (VStr (py_or (git_text w path "remote get-url origin") "—"))).
        unfold git_text. by rewrite Heq.
      * intros Heq.
        change (Some (VStr (if negb (truthy (git_text w' path "status --porcelain"))
                            then "Clean" else "Dirty"))
                = Some (VStr (if negb (truthy (git_text w path "status --porcelain"))
                              then "Clean" else "Dirty"))).
        unfold git_text. by rewrite Heq.
  - eexists. split.
    { unfold value_of. by rewrite (get_git_info_plain w path [] Hm). }
    split; [reflexivity|]. discriminate.
Qed.

(** In [unborn_world] the branch query of [/repo] fails while the two
    others answer. *)
Lemma unborn_queries :
  query_failed unborn_world "/repo" "rev-parse --abbrev-ref HEAD"
  ∧ run_process unborn_world (git_argv "/repo" "remote get-url origin")
    = Ok (stdout_line "git@host:org/r.git")
  ∧ decode (stdout_line "git@host:org/r.git")
    = Ok (String.append "git@host:org/r.git" (String (ascii_of_nat 10) EmptyString))
  ∧ PyStr.strip
      (String.append "git@host:org/r.git" (String (ascii_of_nat 10) EmptyString))
    = "git@host:org/r.git"
  ∧ run_process unborn_world (git_argv "/repo" "status --porcelain")
    = Ok (stdout_line "?? new.txt")
  ∧ decode (stdout_line "?? new.txt")
    = Ok (String.append "?? new.txt" (String (ascii_of_nat 10) EmptyString))
  ∧ String.eqb
      (PyStr.strip (String.append "?? new.txt" (String (ascii_of_nat 10) EmptyString)))
      EmptyString = false.
Proof.
  split; [intros out H; vm_compute in H; discriminate H|].
  repeat split; vm_compute; reflexivity.
Qed.

Lemma failed_queries_leave_defaults_witness :
  (∃ d, value_of (get_git_info broken_world "/repo") = Ok d
     ∧ d !! "is_git" = Some (VBool true)
     ∧ d !! "branch" = Some (VStr "—")
     ∧ d !! "remote" = Some (VStr "—")
     ∧ d !! "dirty" = Some (VStr "Clean"))
  ∧ query_failed unborn_world "/repo" "rev-parse --abbrev-ref HEAD"
  ∧ ∃ d, value_of (get_git_info unborn_world "/repo") = Ok d
     ∧ d !! "is_git" = Some (VBool true)
     ∧ d !! "branch" = Some (VStr "—")
     ∧ d !! "remote" = Some (VStr "git@host:org/r.git")
     ∧ d !! "dirty" = Some (VStr "Dirty").
Proof.
  split.
  - destruct (failed_queries_leave_defaults broken_world "/repo")
      as (d & Hd & Hg & H).
    destruct (H eq_refl) as (Hb & Hr & Hs & _).
    exists d. split; [exact Hd|]. split; [exact Hg|].
    split; [apply Hb; intros out [=]|].
    split; [apply Hr; intros out [=]|apply Hs; intros out [=]].
  - destruct unborn_queries as (Hfail & Hr1 & Hr2 & Hr3 & Hs1 & Hs2 & Hs3).
    split; [exact Hfail|].
    destruct (failed_queries_leave_defaults unborn_world "/repo")
      as (d & Hd & Hg & H).
    destruct (H eq_refl) as (Hb & _ & _ & _ & _ & Hr & Hs & _).
    exists d. split; [exact Hd|]. split; [exact Hg|].
    split; [exact (Hb Hfail)|]. split.
    + rewrite <- Hr3. apply (Hr _ _ Hr1 Hr2). rewrite Hr3. discriminate.
    + rewrite (Hs _ _ Hs1 Hs2), Hs3. reflexivity.
Defined.

(** C8, counterexample: in [gitfile_world] the entry [/wt/.git] is a
    regular file, not a directory, and [/wt] is reported as a repository. *)
Lemma gitfile_counts_as_repository :
  ¬ spec_repo_iff_metadata_directory gitfile_world "/wt".
Proof.
  intros H. specialize (H _ eq_refl). destruct H as [H _].
  specialize (H eq_refl). discriminate H.
Qed.

(** C8, as amended: a path is reported as a repository if and only if an
    entry named [.git], of whatever kind, exists directly beneath it. The
    probe puts no other question to the file system, and every process it
    starts is [git -C path ...]: it never looks at a parent directory. *)
Theorem repo_iff_marker_exists (w : World) (path : string) :
  ∃ d, value_of (get_git_info w path) = Ok d
    ∧ (d !! "is_git" = Some (VBool true) ↔
         path_exists w (OsPath.join path ".git") = true)
    ∧ Forall (λ e, e = EvExists (OsPath.join path ".git")
                   ∨ ∃ args, e = EvExec (["git"; "-C"; path] ++ args))
             (trace_of (get_git_info w path)).
Proof.
  destruct (path_exists w (OsPath.join path ".git")) eqn:Hm.
  - eexists. unfold value_of, trace_of.
    rewrite (get_git_info_repo w path [] Hm). simpl.
    split; [reflexivity|]. split; [done|].
    unfold probe_queries, git_argv.
    repeat apply Forall_cons_2; try apply Forall_nil_2;
      [by left|right; eexists; reflexivity..].
  - eexists. unfold value_of, trace_of.
    rewrite (get_git_info_plain w path [] Hm). simpl.
    split; [reflexivity|]. split.
    + split; discriminate.
    + apply Forall_cons_2; [by left|apply Forall_nil_2].
Qed.

(** C10: the probe is total and never raises. Whatever the world answers
    it returns a dictionary; a missing (or unreadable) marker gives
    [is_git] false; and its helper [git] turns every failure of the
    external call, or of decoding its output, into [None]. *)
Theorem probe_never_raises (w : World) (path : string) (tr : list event) :
  ∃ d tr', get_git_info w path tr = (Ok d, tr')
    ∧ (path_exists w (OsPath.join path ".git") = false →
         d !! "is_git" = Some (VBool false))
    ∧ ∀ cmd tr0, ∃ o tr1, git w path cmd tr0 = (Ok o, tr1)
                          ∧ (query_failed w path cmd → o = None).
Proof.
  destruct (get_git_info_total w path tr) as (d & tr' & Hrun & _ & Hg & _).
  exists d, (tr ++ tr'). split; [exact Hrun|]. split.
  - intros Hm. by rewrite Hg, Hm.
  - intros cmd tr0. eexists _, _. split; [apply git_run|].
    apply query_failed_text.
Qed.

Lemma probe_never_raises_witness :
  ∃ d tr', get_git_info broken_world "/nowhere" [] = (Ok d, tr')
    ∧ d !! "is_git" = Some (VBool false)
    ∧ ∃ tr1, git broken_world "/nowhere" "status --porcelain" [] = (Ok None, tr1).
Proof.
  destruct (probe_never_raises broken_world "/nowhere" [])
    as (d & tr' & Hrun & Hplain & Hgit).
  exists d, tr'. split; [exact Hrun|]. split; [apply Hplain; reflexivity|].
  destruct (Hgit "status --porcelain" []) as (o & tr1 & Hg & Hnone).
  exists tr1. rewrite Hg, Hnone; [reflexivity|]. intros out [=].
Defined.

(** ** Directory lister *)

Lemma get_git_info_framed (w : World) (path : string) (tr : list event) :
  get_git_info w path tr =
    (value_of (get_git_info w path), tr ++ trace_of (get_git_info w path)).
Proof.
  unfold value_of, trace_of.
  destruct (path_exists w (OsPath.join path ".git")) eqn:Hm.
  - by rewrite (get_git_info_repo w path tr Hm), (get_git_info_repo w path [] Hm).
  - by rewrite (get_git_info_plain w path tr Hm), (get_git_info_plain w path [] Hm).
Qed.

(** Writing ["path"] before the probe's entries changes nothing: the probe
    always sets it. *)
Lemma union_path_id (d : dict) (v v' : pyval) :
  d !! "path" = Some v → d ∪ {["path" := v']} = d.
Proof.
  intros Hp. apply map_eq. intros k. rewrite lookup_union.
  destruct (decide (k = "path")) as [->|Hne].
  - rewrite Hp, lookup_singleton_eq. reflexivity.
  - rewrite lookup_singleton_ne by done. by destruct (d !! k).
Qed.

Lemma probe_events (w : World) (path : string) :
  List.filter is_probe (trace_of (get_git_info w path))
    = [EvExists (OsPath.join path ".git")]
  ∧ ∀ p, List.filter (is_listing p) (trace_of (get_git_info w path)) = [].
Proof.
  unfold trace_of.
  destruct (path_exists w (OsPath.join path ".git")) eqn:Hm.
  - rewrite (get_git_info_repo w path [] Hm). done.
  - rewrite (get_git_info_plain w path [] Hm). done.
Qed.

Lemma scan_entries_run (w : World) (path : string) (names : list string) :
  ∀ tr, ∃ infos tr',
    scan_entries w path names tr = (Ok infos, tr ++ tr')
    ∧ Forall2 (λ p d, value_of (get_git_info w p) = Ok d ∧ dict_path d = Ok p)
        (child_directories w path names) infos
    ∧ List.filter is_probe tr'
        = map (λ p, EvExists (OsPath.join p ".git")) (child_directories w path names)
    ∧ ∀ p, List.filter (is_listing p) tr' = [].
Proof.
  unfold child_directories.
  induction names as [|f rest IH]; intros tr.
  - exists [], []. simpl. rewrite app_nil_r. repeat split; constructor.
  - cbn [scan_entries map List.filter]. unfold os_path_isdir.
    rewrite !bind_run. unfold emit. cbn [fst snd]. rewrite ret_run.
    destruct (path_isdir w (OsPath.join path f)) eqn:Hd.
    + rewrite bind_run, get_git_info_framed.
      destruct (get_git_info_total w (OsPath.join path f) [])
        as (d & t0 & Hrun & Hpath & _ & _).
      assert (Hv : value_of (get_git_info w (OsPath.join path f)) = Ok d)
        by (unfold value_of; by rewrite Hrun).
      rewrite Hv, bind_run.
      destruct (IH ((tr ++ [EvIsDir (OsPath.join path f)])
                      ++ trace_of (get_git_info w (OsPath.join path f))))
        as (infos & tr' & Hrest & Hall & Hprobe & Hlist).
      rewrite Hrest, ret_run.
      rewrite (union_path_id d _ _ Hpath).
      exists (d :: infos),
        (EvIsDir (OsPath.join path f)
           :: trace_of (get_git_info w (OsPath.join path f)) ++ tr').
      split; [by rewrite <- !app_assoc|].
      destruct (probe_events w (OsPath.join path f)) as [Hp Hl].
      split; [|split].
      * constructor; [|exact Hall]. split; [exact Hv|].
        unfold dict_path. by rewrite Hpath.
      * cbn [List.filter is_probe]. rewrite List.filter_app, Hp, Hprobe. reflexivity.
      * intros p. cbn [List.filter is_listing].
        by rewrite List.filter_app, Hl, Hlist.
    + destruct (IH (tr ++ [EvIsDir (OsPath.join path f)]))
        as (infos & tr' & Hrest & Hall & Hprobe & Hlist).
      rewrite Hrest.
      exists infos, (EvIsDir (OsPath.join path f) :: tr').
      split; [by rewrite <- !app_assoc|]. done.
Qed.

Lemma scan_top_level_run
    (w : World) (path : string) (names : list string) (tr : list event) :
  listdir w path = Ok names →
  ∃ infos tr',
    scan_top_level w path tr = (Ok infos, tr ++ EvListDir path :: tr')
    ∧ Forall2 (λ p d, value_of (get_git_info w p) = Ok d ∧ dict_path d = Ok p)
        (child_directories w path names) infos
    ∧ List.filter is_probe tr'
        = map (λ p, EvExists (OsPath.join p ".git")) (child_directories w path names)
    ∧ ∀ p, List.filter (is_listing p) tr' = [].
Proof.
  intros Hl. unfold scan_top_level, os_listdir.
  destruct (scan_entries_run w path names (tr ++ [EvListDir path]))
    as (infos & tr' & Hrun & Hall & Hprobe & Hlist).
  exists infos, tr'.
  rewrite !bind_run. unfold emit, lift_result. cbn [fst snd].
  rewrite Hl, Hrun, <- app_assoc. done.
Qed.

(** C6: for a directory that can be listed, [scan_top_level] returns one
    dictionary per directory-type entry, in the order of the listing, each
    being the probe's result for that entry; and the probes made are
    exactly one per such entry, in the same order. *)
Theorem scan_top_level_lists_directories
    (w : World) (path : string) (names : list string) (tr : list event) :
  listdir w path = Ok names →
  ∃ infos tr',
    scan_top_level w path tr = (Ok infos, tr ++ EvListDir path :: tr')
    ∧ Forall2 (λ p d, value_of (get_git_info w p) = Ok d ∧ dict_path d = Ok p)
        (child_directories w path names) infos
    ∧ List.filter is_probe tr'
        = map (λ p, EvExists (OsPath.join p ".git")) (child_directories w path names).
Proof.
  intros Hl.
  destruct (scan_top_level_run w path names tr Hl)
    as (infos & tr' & Hrun & Hall & Hprobe & _).
  by exists infos, tr'.
Qed.

Lemma scan_top_level_lists_directories_witness :
  ∃ infos tr',
    scan_top_level work_world "/work" [] = (Ok infos, EvListDir "/work" :: tr')
    ∧ Forall2 (λ p d, value_of (get_git_info work_world p) = Ok d ∧ dict_path d = Ok p)
        ["/work/a"; "/work/b"; "/work/c"] infos
    ∧ List.filter is_probe tr'
        = [EvExists "/work/a/.git"; EvExists "/work/b/.git"; EvExists "/work/c/.git"].
Proof.
  destruct (scan_top_level_lists_directories work_world "/work"
              ["a"; "notes.txt"; "b"; "c"] [] eq_refl)
    as (infos & tr' & Hrun & Hall & Hprobe).
  exists infos, tr'. split; [exact Hrun|]. split; [exact Hall|exact Hprobe].
Defined.

(** ** Seeding the table *)

Lemma seeded_rows :
  map (λ r, (label r, level r, git_mark r, info r !! "dirty")) (rows (app seeded))
  = [("a", 0, "✅", Some (VStr "Clean"));
     ("b", 0, "✅", Some (VStr "Dirty"));
     ("c", 0, "❌", None)]
  ∧ pool seeded = [].
Proof. vm_compute. done. Qed.

(** C4, counterexample: with the three rows of [/work] on display, Scan
    Projects on the missing root [/nonexistent] leaves an empty table. *)
Lemma failed_seed_empties_table :
  ¬ spec_failed_seed_keeps_tree work_world seeded_then_mistyped.
Proof.
  intros H. destruct (H eq_refl) as [Hrows _].
  vm_compute in Hrows. discriminate Hrows.
Qed.

(** C4, as amended: when the root does not exist, Scan Projects reports
    "Path not found" at once, starts no worker and makes no listing; the
    table, cleared before the test, is left empty. *)
Theorem failed_seed_clears_table (w : World) (s : State) :
  path_exists w (PyStr.strip (root_input (app s))) = false →
  rows (app (scan_projects w s)) = []
  ∧ status_value (app (scan_projects w s)) = "❌ Path not found"
  ∧ pool (scan_projects w s) = pool s
  ∧ trace (scan_projects w s)
      = trace s ++ [EvExists (PyStr.strip (root_input (app s)))].
Proof.
  intros He. unfold scan_projects, os_path_exists.
  rewrite bind_run. unfold emit. cbn [fst snd set_rows root_input].
  rewrite ret_run, He. done.
Qed.

Lemma failed_seed_clears_table_witness :
  rows (app (scan_projects work_world seeded_then_mistyped)) = []
  ∧ status_value (app (scan_projects work_world seeded_then_mistyped))
      = "❌ Path not found"
  ∧ pool (scan_projects work_world seeded_then_mistyped) = []
  ∧ rows (app seeded_then_mistyped) ≠ [].
Proof.
  destruct (failed_seed_clears_table work_world seeded_then_mistyped eq_refl)
    as (Hrows & Hstatus & Hpool & _).
  split; [exact Hrows|]. split; [exact Hstatus|].
  split; [rewrite Hpool; reflexivity|].
  vm_compute. discriminate.
Defined.

(** ** Expanding a row *)

(** C9, at the failing input: [x] is shown at level 1, and expanding it
    puts its entry [y] right after it, but again at level 1, not 2. *)
Theorem nested_children_keep_level_one :
  map (λ r, (dict_path (info r), level r, label r)) (rows (app expanded_x))
  = [(Ok "/work/a", 0, "a");
     (Ok "/work/a/.git", 1, "    .git");
     (Ok "/work/a/x", 1, "    x");
     (Ok "/work/a/x/y", 1, "    y");
     (Ok "/work/b", 0, "b");
     (Ok "/work/c", 0, "c")]
  ∧ pool expanded_x = [].
Proof. vm_compute. done. Qed.

(** ** One listing per request *)

(** C2, counterexample: a second request on [a] while the first is in
    flight; both workers then run to their end, and [/work/a] has been
    listed twice. *)
Lemma second_request_lists_again :
  ¬ spec_expand_coalesced work_world expanding_a 0.
Proof.
  intros H.
  assert (Hrow : ∃ r, rows (app expanding_a) !! 0 = Some r
                      ∧ dict_path (info r) = Ok "/work/a").
  { eexists. split; reflexivity. }
  destruct Hrow as (r & Hr & Hp).
  specialize (H r "/work/a" Hr Hp eq_refl
                (Run 0 :: Run 1 :: Run 0 :: Run 1 :: repeat (Run 0) 7)).
  vm_compute in H.
  specialize (H _ eq_refl eq_refl eq_refl).
  vm_compute in H. lia.
Qed.

Lemma listings_app (p : string) (t1 t2 : list event) :
  listings p (t1 ++ t2) = listings p t1 + listings p t2.
Proof. unfold listings. by rewrite List.filter_app, length_app. Qed.

Lemma starts_app (p : string) (t1 t2 : list event) :
  starts p (t1 ++ t2) = starts p t1 + starts p t2.
Proof. unfold starts. by rewrite List.filter_app, length_app. Qed.

Lemma pending_app (p : string) (l1 l2 : list thread) :
  pending p (l1 ++ l2) = pending p l1 + pending p l2.
Proof. unfold pending. by rewrite List.filter_app, length_app. Qed.

Lemma quiet_counts (p : string) (tr : list event) :
  forallb quiet tr = true → listings p tr = 0 ∧ starts p tr = 0.
Proof.
  unfold listings, starts. induction tr as [|e tr IH]; [done|].
  cbn [forallb List.filter]. intros [He Htr]%andb_prop.
  destruct e; try discriminate He; cbn [is_listing is_start]; auto.
Qed.

Lemma get_git_info_quiet (w : World) (path : string) :
  forallb quiet (trace_of (get_git_info w path)) = true.
Proof.
  unfold trace_of.
  destruct (path_exists w (OsPath.join path ".git")) eqn:Hm.
  - by rewrite (get_git_info_repo w path [] Hm).
  - by rewrite (get_git_info_plain w path [] Hm).
Qed.

Lemma scan_entries_quiet (w : World) (path : string) (names : list string) :
  ∀ tr, ∃ res tr',
    scan_entries w path names tr = (res, tr ++ tr') ∧ forallb quiet tr' = true.
Proof.
  induction names as [|f rest IH]; intros tr.
  - exists (Ok []), []. by rewrite app_nil_r.
  - cbn [scan_entries]. unfold os_path_isdir.
    rewrite !bind_run. unfold emit. cbn [fst snd]. rewrite ret_run.
    destruct (path_isdir w (OsPath.join path f)).
    + rewrite bind_run, get_git_info_framed.
      destruct (value_of (get_git_info w (OsPath.join path f))) as [d|e].
      * rewrite bind_run.
        destruct (IH ((tr ++ [EvIsDir (OsPath.join path f)])
                        ++ trace_of (get_git_info w (OsPath.join path f))))
          as (res & tr' & Hrest & Hq).
        rewrite Hrest.
        exists (match res with
                | Ok tl => Ok ((d ∪ {["path" := VStr (OsPath.join path f)]}) :: tl)
                | Raise e => Raise e
                end),
          (EvIsDir (OsPath.join path f)
             :: trace_of (get_git_info w (OsPath.join path f)) ++ tr').
        split.
        -- rewrite <- !app_assoc. by destruct res.
        -- cbn [forallb quiet]. by rewrite forallb_app, get_git_info_quiet, Hq.
      * exists (Raise e),
          (EvIsDir (OsPath.join path f)
             :: trace_of (get_git_info w (OsPath.join path f))).
        split; [by rewrite <- !app_assoc|].
        cbn [forallb quiet]. apply get_git_info_quiet.
    + destruct (IH (tr ++ [EvIsDir (OsPath.join path f)])) as (res & tr' & Hrest & Hq).
      rewrite Hrest. exists res, (EvIsDir (OsPath.join path f) :: tr').
      split; [by rewrite <- !app_assoc|]. done.
Qed.

(** A call of [scan_top_level] lists its directory once, lists no other
    and starts no thread, whether it returns or raises. *)
Lemma scan_top_level_counts (w : World) (q : string) (tr : list event) (p : string) :
  listings p (scan_top_level w q tr).2
    = listings p tr + (if String.eqb p q then 1 else 0)
  ∧ starts p (scan_top_level w q tr).2 = starts p tr.
Proof.
  unfold scan_top_level, os_listdir.
  rewrite !bind_run. unfold emit, lift_result. cbn [fst snd].
  assert (Hone : listings p [EvListDir q] = (if String.eqb p q then 1 else 0)
                 ∧ starts p [EvListDir q] = 0).
  { unfold listings, starts. cbn. by destruct (String.eqb p q). }
  destruct Hone as [Hl Hs].
  destruct (listdir w q) as [names|e].
  - destruct (scan_entries_quiet w q names (tr ++ [EvListDir q]))
      as (res & tr' & Hrun & Hq).
    rewrite Hrun. cbn [snd].
    destruct (quiet_counts p tr' Hq) as [Hl' Hs'].
    rewrite !listings_app, !starts_app, Hl, Hs, Hl', Hs'. lia.
  - cbn [snd]. rewrite listings_app, starts_app, Hl, Hs. lia.
Qed.

(** One statement group of a worker: either it is the listing it was
    waiting for, or neither count moves. *)
Lemma thread_step_counts (w : World) (th : thread) (a : App) (tr : list event)
    (p : string) :
  listings p (thread_step w th a tr).2 + waiting_count p (thread_step w th a tr).1.2
    = listings p tr + waiting_count p (Some th)
  ∧ starts p (thread_step w th a tr).2 = starts p tr.
Proof.
  assert (Hwait : ∀ t, waiting_count p (Some t)
                       = match awaiting t with
                         | Some q => if String.eqb p q then 1 else 0
                         | None => 0
                         end).
  { intros t. unfold waiting_count, waits. by destruct (awaiting t). }
  rewrite Hwait.
  destruct th as [info r|info r|info r subs|info k todo|root|root|todo];
    cbn [thread_step awaiting].
  - destruct (dict_path info) as [q|e] eqn:Hp; cbn [fst snd].
    + rewrite Hwait. cbn [awaiting]. by rewrite Hp.
    + done.
  - destruct (dict_path info) as [q|e] eqn:Hp; [|done].
    destruct (scan_top_level_counts w q tr p) as [Hl Hs].
    destruct (scan_top_level w q tr) as [[subs|e] tr'];
      cbn [fst snd] in *; rewrite ?Hwait; cbn [awaiting waiting_count];
      rewrite Hl, Hs; split; lia.
  - destruct (index_of (row_id r) (rows a)); cbn [fst snd];
      rewrite ?Hwait; cbn [awaiting waiting_count]; done.
  - destruct todo as [|sub rest].
    + destruct (dict_path info); cbn [fst snd waiting_count]; done.
    + destruct (FolderRow_init (next_id a) sub 1); cbn [fst snd];
        rewrite ?Hwait; cbn [awaiting waiting_count]; done.
  - cbn [fst snd]. rewrite Hwait. done.
  - destruct (scan_top_level_counts w root tr p) as [Hl Hs].
    destruct (scan_top_level w root tr) as [[subs|e] tr'];
      cbn [fst snd] in *; rewrite ?Hwait; cbn [awaiting waiting_count];
      rewrite Hl, Hs; split; lia.
  - destruct todo as [|sub rest].
    + done.
    + destruct (FolderRow_init (next_id a) sub 0); cbn [fst snd];
        rewrite ?Hwait; cbn [awaiting waiting_count]; done.
Qed.

Lemma pending_insert (p : string) (l : list thread) (t : nat) (th th' : thread) :
  l !! t = Some th →
  pending p (<[t := th']> l) + waiting_count p (Some th)
    = pending p l + waiting_count p (Some th').
Proof.
  intros Hl.
  rewrite <- (take_drop_middle l t th Hl) at 2.
  rewrite insert_take_drop by (eapply lookup_lt_Some, Hl).
  rewrite !pending_app.
  change (th' :: drop (S t) l) with ([th'] ++ drop (S t) l).
  change (th :: drop (S t) l) with ([th] ++ drop (S t) l).
  rewrite !pending_app. unfold pending at 2 5. cbn [List.filter waiting_count].
  destruct (waits p th), (waits p th'); cbn [length]; lia.
Qed.

Lemma pending_delete (p : string) (l : list thread) (t : nat) (th : thread) :
  l !! t = Some th →
  pending p (delete t l) + waiting_count p (Some th) = pending p l.
Proof.
  intros Hl.
  rewrite <- (take_drop_middle l t th Hl) at 2.
  rewrite delete_take_drop, !pending_app.
  change (th :: drop (S t) l) with ([th] ++ drop (S t) l).
  rewrite pending_app. unfold pending at 4. cbn [List.filter waiting_count].
  destruct (waits p th); cbn [length]; lia.
Qed.

Lemma initial_balanced : balanced initial.
Proof. intros p. reflexivity. Qed.

Lemma rescan_folder_balanced (d : dict) (r : FolderRow) (s : State) :
  balanced s → balanced (rescan_folder d r s).
Proof.
  intros Hb p. specialize (Hb p). cbn [rescan_folder trace pool].
  rewrite listings_app, starts_app, pending_app.
  unfold listings at 2, starts at 2, pending at 2.
  cbn [List.filter is_listing is_start target_path]. unfold waits. cbn [awaiting].
  destruct (dict_path d) as [q|e]; [destruct (String.eqb p q)|]; cbn [length]; lia.
Qed.

Lemma scan_projects_balanced (w : World) (s : State) :
  balanced s → balanced (scan_projects w s).
Proof.
  intros Hb p. specialize (Hb p). unfold scan_projects, os_path_exists.
  rewrite bind_run. unfold emit. cbn [fst snd]. rewrite ret_run.
  destruct (path_exists w _); cbn [trace pool].
  - rewrite !listings_app, !starts_app, pending_app.
    unfold listings at 2 3, starts at 2 3, pending at 2.
    cbn [List.filter is_listing is_start target_path]. unfold waits. cbn [awaiting].
    destruct (String.eqb p _); cbn [length]; lia.
  - rewrite listings_app, starts_app. cbn. lia.
Qed.

Lemma step_balanced (w : World) (act : action) (s s' : State) :
  step w act s = Some s' → balanced s → balanced s'.
Proof.
  destruct act as [|i|v|t]; cbn [step]; intros Hstep Hb.
  - injection Hstep as <-. by apply scan_projects_balanced.
  - destruct (rows (app s) !! i) as [r|]; [|discriminate Hstep].
    injection Hstep as <-. by apply rescan_folder_balanced.
  - injection Hstep as <-. exact Hb.
  - destruct (pool s !! t) as [th|] eqn:Hth; [|discriminate Hstep].
    cbn in Hstep. intros p. specialize (Hb p).
    destruct (thread_step_counts w th (app s) (trace s) p) as [Hl Hs].
    destruct (thread_step w th (app s) (trace s)) as [[a' [th'|]] tr'];
      injection Hstep as <-; cbn [trace pool fst snd] in *.
    + pose proof (pending_insert p (pool s) t th th' Hth) as Hp.
      cbn [waiting_count] in *. lia.
    + pose proof (pending_delete p (pool s) t th Hth) as Hp.
      cbn [waiting_count] in *. lia.
Qed.

Lemma run_balanced (acts : list (World * action)) :
  ∀ s s', run acts s = Some s' → balanced s → balanced s'.
Proof.
  induction acts as [|[w act] rest IH]; intros s s' Hrun Hb.
  - injection Hrun as <-. exact Hb.
  - cbn [run] in Hrun.
    destruct (step w act s) as [s1|] eqn:Hstep; [|discriminate Hrun].
    cbn in Hrun. eapply IH; [exact Hrun|]. eapply step_balanced; eauto.
Qed.

(** C2, as amended: every request starts a worker of its own, and every
    worker makes a listing of its own. Whatever the operator does and
    however the workers interleave, once they have all returned each path
    has been listed exactly as often as a thread was started on it: two
    requests on one row are two listings. *)
Theorem every_request_lists_once
    (acts : list (World * action)) (s : State) (p : string) :
  run acts initial = Some s →
  pool s = [] →
  listings p (trace s) = starts p (trace s)
  ∧ ∀ d r s0,
      pool (rescan_folder d r s0) = pool s0 ++ [RescanBegin d r]
      ∧ trace (rescan_folder d r s0) = trace s0 ++ [EvThreadStart (TRescan d)].
Proof.
  intros Hrun Hpool. split; [|done].
  pose proof (run_balanced acts initial s Hrun initial_balanced p) as Hb.
  rewrite Hpool in Hb. cbn in Hb. lia.
Qed.

Lemma every_request_lists_once_witness :
  listings "/work/a" (trace double_requested) = 2
  ∧ starts "/work/a" (trace double_requested) = 2.
Proof.
  destruct (every_request_lists_once (map (pair work_world) double_request)
              double_requested "/work/a") as [Heq _].
  - vm_compute. reflexivity.
  - vm_compute. reflexivity.
  - split; [rewrite Heq|]; vm_compute; reflexivity.
Defined.

(** ** Row identities *)

Lemma list_insert_at_perm {A} (k : nat) (x : A) (l : list A) :
  list_insert_at k x l ≡ₚ x :: l.
Proof.
  unfold list_insert_at. rewrite <- Permutation_middle. by rewrite take_drop.
Qed.

Lemma FolderRow_init_id (id : nat) (d : dict) (lvl : nat) (r : FolderRow) :
  FolderRow_init id d lvl = Ok r → row_id r = id.
Proof.
  unfold FolderRow_init. destruct (dict_path d); [|discriminate].
  destruct (d !! "is_git"); [|discriminate]. by intros [= <-].
Qed.

Lemma ids_fresh_add (a : App) (r : FolderRow) (l : list FolderRow) :
  ids_fresh a → row_id r = next_id a → l ≡ₚ r :: rows a →
  ids_fresh (set_rows (bump_id a) l).
Proof.
  intros [Hnd Hlt] Hid Hperm. unfold ids_fresh. cbn [set_rows bump_id rows next_id].
  rewrite Hperm. cbn [map]. split.
  - apply NoDup_cons. split; [|exact Hnd].
    rewrite Hid. intros Hin. apply list_elem_of_fmap in Hin as (r0 & Heq & Hr0).
    rewrite Forall_forall in Hlt. specialize (Hlt r0 Hr0). lia.
  - constructor; [lia|]. eapply Forall_impl; [exact Hlt|]. intros; simpl in *; lia.
Qed.

Lemma ids_fresh_bump (a : App) : ids_fresh a → ids_fresh (bump_id a).
Proof.
  intros [Hnd Hlt]. split; [exact Hnd|].
  eapply Forall_impl; [exact Hlt|]. cbn. intros; lia.
Qed.

Lemma thread_step_ids_fresh (w : World) (th : thread) (a : App) (tr : list event) :
  ids_fresh a → ids_fresh (thread_step w th a tr).1.1.
Proof.
  intros Hf.
  destruct th as [d r|d r|d r subs|d k todo|root|root|todo]; cbn [thread_step].
  - by destruct (dict_path d).
  - destruct (dict_path d); [|done]. by destruct (scan_top_level w _ tr) as [[?|?] ?].
  - by destruct (index_of _ _).
  - destruct todo as [|sub rest]; [by destruct (dict_path d)|].
    destruct (FolderRow_init _ _ _) as [r|e] eqn:Hr; cbn [fst].
    + eapply ids_fresh_add; [exact Hf|by eapply FolderRow_init_id|].
      apply list_insert_at_perm.
    + by apply ids_fresh_bump.
  - done.
  - by destruct (scan_top_level w _ tr) as [[?|?] ?].
  - destruct todo as [|sub rest]; [done|].
    destruct (FolderRow_init _ _ _) as [r|e] eqn:Hr; cbn [fst].
    + eapply ids_fresh_add; [exact Hf|by eapply FolderRow_init_id|].
      by rewrite Permutation_app_comm.
    + by apply ids_fresh_bump.
Qed.

Lemma step_ids_fresh (w : World) (act : action) (s s' : State) :
  step w act s = Some s' → ids_fresh (app s) → ids_fresh (app s').
Proof.
  destruct act as [|i|v|t]; cbn [step]; intros Hstep Hf.
  - injection Hstep as <-. unfold scan_projects, os_path_exists.
    rewrite bind_run. unfold emit. cbn [fst snd]. rewrite ret_run.
    destruct (path_exists w _); cbn [app]; (split; [constructor|constructor]).
  - destruct (rows (app s) !! i); [|discriminate Hstep]. by injection Hstep as <-.
  - injection Hstep as <-. exact Hf.
  - destruct (pool s !! t) as [th|]; [|discriminate Hstep]. cbn in Hstep.
    pose proof (thread_step_ids_fresh w th (app s) (trace s) Hf) as Hk.
    destruct (thread_step w th (app s) (trace s)) as [[a' [th'|]] tr'];
      by injection Hstep as <-.
Qed.

Lemma index_of_unique (l : list FolderRow) (i : nat) (r : FolderRow) :
  NoDup (map row_id l) → l !! i = Some r → index_of (row_id r) l = Some i.
Proof.
  revert i. induction l as [|r0 l IH]; intros i Hnd Hl; [done|].
  cbn [map] in Hnd. apply NoDup_cons in Hnd as [Hnotin Hnd].
  destruct i as [|i]; cbn [index_of].
  - injection Hl as ->. by rewrite Nat.eqb_refl.
  - cbn in Hl. destruct (Nat.eqb_spec (row_id r0) (row_id r)) as [Heq|Hne].
    + exfalso. apply Hnotin. rewrite Heq.
      apply list_elem_of_fmap. exists r. split; [done|].
      by eapply list_elem_of_lookup_2.
    + by rewrite (IH i Hnd Hl).
Qed.

(** In every table the application can reach, a row is found where it is:
    [rows.index(row_obj)] returns the position of the row pressed. *)
Lemma reachable_row_found (acts : list (World * action)) (s : State)
    (i : nat) (r : FolderRow) :
  run acts initial = Some s →
  rows (app s) !! i = Some r →
  index_of (row_id r) (rows (app s)) = Some i.
Proof.
  intros Hrun Hrow. apply index_of_unique; [|exact Hrow].
  assert (Hf : ids_fresh (app s)); [|by destruct Hf].
  assert (Hgen : ∀ s0, ids_fresh (app s0) → run acts s0 = Some s → ids_fresh (app s)).
  { clear. induction acts as [|[w act] rest IH]; intros s0 Hf Hrun.
    - by injection Hrun as <-.
    - cbn [run] in Hrun.
      destruct (step w act s0) as [s1|] eqn:Hstep; [|discriminate Hrun].
      cbn in Hrun. eapply IH; [|exact Hrun]. by eapply step_ids_fresh. }
  apply (Hgen initial); [|exact Hrun]. split; constructor.
Qed.

(** ** Re-expanding a row *)

Lemma run_in_cons (w : World) (act : action) (acts : list action) (s : State) :
  run_in w (act :: acts) s = step w act s ≫= run_in w acts.
Proof. reflexivity. Qed.

(** The youngest worker takes a step. *)
Lemma step_run_last (w : World) (a : App) (pl : list thread) (th : thread)
    (tr : list event) :
  step w (Run (length pl)) {| app := a; pool := pl ++ [th]; trace := tr |}
  = Some (match thread_step w th a tr with
          | (a', Some th', tr') => {| app := a'; pool := pl ++ [th']; trace := tr' |}
          | (a', None, tr') => {| app := a'; pool := pl; trace := tr' |}
          end).
Proof.
  cbn [step pool app trace]. rewrite list_lookup_middle by done. cbn.
  destruct (thread_step w th a tr) as [[a' [th'|]] tr'].
  - rewrite insert_app_r_alt by lia. by rewrite Nat.sub_diag.
  - by rewrite delete_middle, app_nil_r.
Qed.

Lemma list_insert_at_take {A} (k : nat) (x : A) (l : list A) :
  k ≤ length l →
  take (S k) (list_insert_at k x l) = take k l ++ [x]
  ∧ drop (S k) (list_insert_at k x l) = drop k l
  ∧ S k ≤ length (list_insert_at k x l).
Proof.
  intros Hk. unfold list_insert_at.
  assert (Hlen : length (take k l) = k) by (rewrite length_take; lia).
  repeat split.
  - change (x :: drop k l) with ([x] ++ drop k l). rewrite app_assoc.
    rewrite take_app_length'; [done|]. rewrite length_app, Hlen. cbn. lia.
  - change (x :: drop k l) with ([x] ++ drop k l). rewrite app_assoc.
    rewrite drop_app_length'; [done|]. rewrite length_app, Hlen. cbn. lia.
  - rewrite length_app, Hlen. cbn. lia.
Qed.

Lemma FolderRow_init_ready (id : nat) (d : dict) (lvl : nat) :
  row_ready d →
  ∃ r, FolderRow_init id d lvl = Ok r ∧ info r = d ∧ level r = lvl ∧ row_id r = id.
Proof.
  intros [[p Hp] [g Hg]]. unfold FolderRow_init. rewrite Hp, Hg.
  eexists. split; [reflexivity|]. done.
Qed.

(** The loop of [rescan_folder]'s task and its last lines, run without
    interruption: the rows made from [todo] end up, in order, at position
    [k], and nothing else in the table moves. *)
Lemma rescan_loop (w : World) (d : dict) (pl : list thread) (todo : list dict) :
  Forall row_ready todo →
  ∀ (a : App) (k : nat) (tr : list event),
    k ≤ length (rows a) →
    ∃ s' news,
      run_in w (repeat (Run (length pl)) (S (length todo)))
        {| app := a; pool := pl ++ [RescanInsert d k todo]; trace := tr |} = Some s'
      ∧ pool s' = pl
      ∧ trace s' = tr
      ∧ rows (app s') = take k (rows a) ++ news ++ drop k (rows a)
      ∧ Forall2 (λ sub r', info r' = sub ∧ level r' = 1) todo news.
Proof.
  induction 1 as [|sub rest Hsub Hrest IH]; intros a k tr Hk.
  - cbn [length repeat]. rewrite run_in_cons, step_run_last.
    cbn [thread_step].
    exists (match dict_path d with
            | Ok p => {| app := set_status (set_progress a false)
                                  (String.append "✅ Finished " (OsPath.basename p));
                         pool := pl; trace := tr |}
            | Raise _ => {| app := set_progress a false; pool := pl; trace := tr |}
            end), [].
    destruct (dict_path d); cbn; rewrite take_drop; repeat split; constructor.
  - cbn [length repeat]. rewrite run_in_cons, step_run_last.
    cbn [thread_step].
    destruct (FolderRow_init_ready (next_id a) sub 1 Hsub) as (r & Hr & Hinfo & Hlvl & _).
    rewrite Hr. cbn [mbind option_bind].
    destruct (list_insert_at_take k r (rows a) Hk) as (Htake & Hdrop & Hlen).
    destruct (IH (set_rows (bump_id a) (list_insert_at k r (rows a))) (k + 1) tr)
      as (s' & news & Hrun & Hpool & Htr & Hrows & Hall).
    { cbn [set_rows rows]. rewrite Nat.add_1_r. exact Hlen. }
    exists s', (r :: news). split; [exact Hrun|]. split; [exact Hpool|].
    split; [exact Htr|]. split.
    + rewrite Hrows. cbn [set_rows rows]. rewrite Nat.add_1_r, Htake, Hdrop.
      by rewrite <- app_assoc.
    + by constructor.
Qed.

Lemma probe_row_ready (w : World) (c : string) (d : dict) :
  value_of (get_git_info w c) = Ok d → row_ready d.
Proof.
  intros Hv. destruct (get_git_info_total w c []) as (d' & tr' & Hrun & Hp & Hg & _).
  unfold value_of in Hv. rewrite Hrun in Hv. injection Hv as <-.
  split; [exists c; unfold dict_path; by rewrite Hp|by rewrite Hg].
Qed.

(** A whole expansion run without interruption: the request, then the
    worker's every step. *)
Lemma rescan_splices (w : World) (s : State) (i : nat) (r : FolderRow)
    (p : string) (names : list string) :
  rows (app s) !! i = Some r →
  index_of (row_id r) (rows (app s)) = Some i →
  dict_path (info r) = Ok p →
  listdir w p = Ok names →
  ∃ s' news,
    run_in w (ClickRescan i
                :: repeat (Run (length (pool s)))
                     (4 + length (child_directories w p names))) s = Some s'
    ∧ pool s' = pool s
    ∧ rows (app s') = take (S i) (rows (app s)) ++ news ++ drop (S i) (rows (app s))
    ∧ Forall2 (λ c r', dict_path (info r') = Ok c
                       ∧ value_of (get_git_info w c) = Ok (info r')
                       ∧ level r' = 1)
        (child_directories w p names) news.
Proof.
  intros Hrow Hidx Hp Hl. destruct s as [a pl tr]. cbn [app pool trace] in *.
  destruct (scan_top_level_run w p names (tr ++ [EvThreadStart (TRescan (info r))]) Hl)
    as (infos & tr' & Hscan & Hall & _ & _).
  assert (Hready : Forall row_ready infos).
  { clear -Hall. induction Hall as [|c d cs ds [Hv _] _ IH]; constructor; [|exact IH].
    eapply probe_row_ready, Hv. }
  set (a1 := set_status (set_progress a true)
               (String.append "Rescanning: " (String.append (OsPath.basename p) "..."))).
  destruct (rescan_loop w (info r) pl infos Hready a1 (i + 1)
              ((tr ++ [EvThreadStart (TRescan (info r))]) ++ EvListDir p :: tr'))
    as (s' & news & Hrun & Hpool & _ & Hrows & Hnews).
  { cbn [a1 set_status set_progress rows]. apply lookup_lt_Some in Hrow. lia. }
  exists s', news.
  rewrite <- (Forall2_length _ _ _ Hall) in Hrun.
  split; [|split; [exact Hpool|split]].
  - rewrite run_in_cons. cbn [step app rows]. rewrite Hrow. cbn [mbind option_bind].
    unfold rescan_folder. cbn [app pool trace repeat Nat.add].
    rewrite run_in_cons, step_run_last. cbn [thread_step]. rewrite Hp.
    cbn [mbind option_bind].
    rewrite run_in_cons, step_run_last. cbn [thread_step]. rewrite Hp, Hscan.
    cbn [mbind option_bind].
    rewrite run_in_cons, step_run_last. cbn [thread_step].
    change (rows (set_status (set_progress a true) _)) with (rows a).
    rewrite Hidx. cbn [mbind option_bind]. exact Hrun.
  - rewrite Hrows. cbn [a1 set_status set_progress rows].
    by rewrite Nat.add_1_r.
  - clear -Hall Hnews. revert news Hnews.
    induction Hall as [|c d cs ds [Hv Hc] _ IH]; intros news Hnews.
    + apply Forall2_nil_inv_l in Hnews as ->. constructor.
    + apply Forall2_cons_inv_l in Hnews as (r' & news' & [Hi Hlv] & Hrest & ->).
      constructor; [|by apply IH]. by rewrite Hi.
Qed.

Lemma list_insert_at_sublist {A} (k : nat) (x : A) (l : list A) :
  l `sublist_of` list_insert_at k x l.
Proof.
  unfold list_insert_at. rewrite <- (take_drop k l) at 1.
  apply sublist_app; [done|]. by apply sublist_cons.
Qed.

Lemma thread_step_keeps_rows (w : World) (th : thread) (a : App) (tr : list event) :
  rows a `sublist_of` rows (thread_step w th a tr).1.1.
Proof.
  destruct th as [d r|d r|d r subs|d k todo|root|root|todo]; cbn [thread_step].
  - by destruct (dict_path d).
  - destruct (dict_path d); [|done]. by destruct (scan_top_level w _ tr) as [[?|?] ?].
  - by destruct (index_of _ _).
  - destruct todo as [|sub rest]; [by destruct (dict_path d)|].
    destruct (FolderRow_init _ _ _); [|done]. apply list_insert_at_sublist.
  - done.
  - by destruct (scan_top_level w _ tr) as [[?|?] ?].
  - destruct todo as [|sub rest]; [done|].
    destruct (FolderRow_init _ _ _); [|done]. cbn. by apply sublist_inserts_r.
Qed.

(** Only Scan Projects ever removes a row: requests for expansion and
    workers, in any interleaving and in any worlds, leave every row of the
    table in it, in the same order. *)
Lemma rescan_never_discards (acts : list (World * action)) :
  forallb (λ wa, negb (is_click_scan wa.2)) acts = true →
  ∀ s s', run acts s = Some s' → rows (app s) `sublist_of` rows (app s').
Proof.
  induction acts as [|[w act] rest IH]; intros Hacts s s' Hrun.
  - by injection Hrun as <-.
  - cbn [forallb] in Hacts. apply andb_prop in Hacts as [Hact Hrest].
    cbn [run] in Hrun.
    destruct (step w act s) as [s1|] eqn:Hstep; [|discriminate Hrun].
    cbn in Hrun. transitivity (rows (app s1)); [|by apply IH].
    clear -Hstep Hact. destruct act as [|i|v|t]; cbn [step] in Hstep.
    + discriminate Hact.
    + destruct (rows (app s) !! i); [|discriminate Hstep]. by injection Hstep as <-.
    + by injection Hstep as <-.
    + destruct (pool s !! t) as [th|]; [|discriminate Hstep]. cbn in Hstep.
      pose proof (thread_step_keeps_rows w th (app s) (trace s)) as Hk.
      destruct (thread_step w th (app s) (trace s)) as [[a' [th'|]] tr'];
        by injection Hstep as <-.
Qed.

Lemma reexpanded_a_rows :
  map (λ r, (dict_path (info r), level r)) (rows (app reexpanded_a))
  = [(Ok "/work/a", 0);
     (Ok "/work/a/.git", 1); (Ok "/work/a/z", 1);
     (Ok "/work/a/.git", 1); (Ok "/work/a/x", 1);
     (Ok "/work/b", 0); (Ok "/work/c", 0)]
  ∧ pool reexpanded_a = [].
Proof. vm_compute. done. Qed.

Lemma reexpansion_facts :
  ∃ r r',
    rows (app seeded) !! 0 = Some r
    ∧ dict_path (info r) = Ok "/work/a"
    ∧ run_in work_world (ClickRescan 0 :: repeat (Run 0) 6) seeded = Some expanded_a
    ∧ pool expanded_a = []
    ∧ listdir changed_world "/work/a" = Ok [".git"; "z"]
    ∧ run_in changed_world (ClickRescan 0 :: repeat (Run 0) 6) expanded_a
      = Some reexpanded_a
    ∧ pool reexpanded_a = []
    ∧ rows (app reexpanded_a) !! 4 = Some r'
    ∧ dict_path (info r') = Ok "/work/a/x"
    ∧ (row_id r' ∉ map row_id (rows (app seeded)))
    ∧ child_directories changed_world "/work/a" [".git"; "z"]
      = ["/work/a/.git"; "/work/a/z"].
Proof.
  vm_compute. eexists _, _. repeat split; try reflexivity.
  intros Hin. repeat (apply elem_of_cons in Hin as [Hin|Hin]; [discriminate Hin|]).
  by apply elem_of_nil in Hin.
Qed.

(** C3, counterexample: after the re-expansion of [a] the row of
    [/work/a/x], which the current listing no longer has, is still in the
    table, after the rows of the current listing. *)
Lemma stale_rows_linger :
  ¬ spec_reexpand_replaces work_world changed_world seeded 0.
Proof.
  intros H.
  destruct reexpansion_facts
    as (r & r' & Hr & Hp & H1 & Hp1 & Hl & H2 & Hp2 & Hr' & Hp' & Hid & Hc).
  destruct (H r "/work/a" _ 6 6 _ _ Hr Hp H1 Hp1 Hl H2 Hp2 r'
              (list_elem_of_lookup_2 _ _ _ Hr')) as [Hold|(c & Hin & Hpc)].
  - apply Hid. by apply (list_elem_of_fmap_2 row_id) in Hold.
  - rewrite Hp' in Hpc. injection Hpc as <-. rewrite Hc in Hin.
    repeat (apply elem_of_cons in Hin as [Hin|Hin]; [discriminate Hin|]).
    by apply elem_of_nil in Hin.
Qed.

(** C3, as amended: re-expanding a row discards nothing. Run without
    interruption, the request and its worker put one new row per
    directory-type entry of the current listing, in the listing's order,
    directly after the expanded row; every row the table held before,
    those of earlier expansions included, is still there, in the same
    order, so the table then holds the current entries together with the
    stale ones. *)
Theorem reexpand_keeps_prior_rows (w : World) (s : State) (i : nat) (r : FolderRow)
    (p : string) (names : list string) :
  rows (app s) !! i = Some r →
  index_of (row_id r) (rows (app s)) = Some i →
  dict_path (info r) = Ok p →
  listdir w p = Ok names →
  ∃ s' news,
    run_in w (ClickRescan i
                :: repeat (Run (length (pool s)))
                     (4 + length (child_directories w p names))) s = Some s'
    ∧ pool s' = pool s
    ∧ rows (app s') = take (S i) (rows (app s)) ++ news ++ drop (S i) (rows (app s))
    ∧ Forall2 (λ c r', dict_path (info r') = Ok c
                       ∧ value_of (get_git_info w c) = Ok (info r'))
        (child_directories w p names) news
    ∧ rows (app s) `sublist_of` rows (app s').
Proof.
  intros Hrow Hidx Hp Hl.
  destruct (rescan_splices w s i r p names Hrow Hidx Hp Hl)
    as (s' & news & Hrun & Hpool & Hrows & Hnews).
  exists s', news. split; [exact Hrun|]. split; [exact Hpool|].
  split; [exact Hrows|]. split.
  - eapply Forall2_impl; [exact Hnews|]. by intros c r' (? & ? & _).
  - rewrite Hrows. rewrite <- (take_drop (S i) (rows (app s))) at 1.
    apply sublist_app; [done|]. by apply sublist_inserts_l.
Qed.

Lemma expanded_a_first_row :
  ∃ r, rows (app expanded_a) !! 0 = Some r
       ∧ index_of (row_id r) (rows (app expanded_a)) = Some 0
       ∧ dict_path (info r) = Ok "/work/a"
       ∧ length (rows (app expanded_a)) = 5.
Proof. vm_compute. eexists. repeat split; reflexivity. Qed.

Lemma reexpand_keeps_prior_rows_witness :
  ∃ s', run_in changed_world (ClickRescan 0 :: repeat (Run 0) 6) expanded_a = Some s'
        ∧ length (rows (app s')) = 7
        ∧ rows (app expanded_a) `sublist_of` rows (app s').
Proof.
  destruct expanded_a_first_row as (r & Hr & Hi & Hp & Hlen).
  destruct (reexpand_keeps_prior_rows changed_world expanded_a 0 r "/work/a"
              [".git"; "z"] Hr Hi Hp eq_refl)
    as (s' & news & Hrun & _ & Hrows & Hnews & Hsub).
  exists s'. split; [exact Hrun|]. split; [|exact Hsub].
  apply Forall2_length in Hnews.
  rewrite Hrows, !length_app, length_take, length_drop, <- Hnews, Hlen.
  reflexivity.
Defined.

(** * Further properties of the code *)

(** ** Names and labels *)

Lemma append_cons (c : ascii) (a b : string) :
  String.append (String c a) b = String c (String.append a b).
Proof. reflexivity. Qed.

Lemma has_sep_app (a b : string) :
  existsb (Ascii.eqb "/") (list_ascii_of_string (String.append a b))
  = existsb (Ascii.eqb "/") (list_ascii_of_string a)
    || existsb (Ascii.eqb "/") (list_ascii_of_string b).
Proof.
  induction a as [|c a IH]; [done|].
  rewrite append_cons. cbn [list_ascii_of_string existsb].
  rewrite IH. by rewrite orb_assoc.
Qed.

Lemma basename_no_sep (f : string) : no_sep f = true → OsPath.basename f = f.
Proof.
  unfold no_sep. destruct f as [|c f]; [done|].
  cbn [list_ascii_of_string existsb OsPath.basename].
  intros H. apply negb_true_iff, orb_false_elim in H as [Hc Hf].
  rewrite Hf. rewrite Ascii.eqb_sym in Hc. by rewrite Hc.
Qed.

Lemma basename_after_sep (a b : string) :
  no_sep b = true → OsPath.basename (String.append a (String "/" b)) = b.
Proof.
  unfold no_sep. intros Hb. apply negb_true_iff in Hb.
  induction a as [|c a IH].
  - change (String.append EmptyString (String "/" b)) with (String "/" b).
    cbn [OsPath.basename]. by rewrite Hb.
  - rewrite append_cons. cbn [OsPath.basename].
    rewrite has_sep_app. cbn [list_ascii_of_string existsb].
    rewrite Ascii.eqb_refl. cbn [orb]. rewrite orb_true_r. exact IH.
Qed.

Lemma endswith_sep_has_sep (a : string) :
  OsPath.endswith_sep a = true →
  existsb (Ascii.eqb "/") (list_ascii_of_string a) = true.
Proof.
  induction a as [|c a IH]; [discriminate|].
  cbn [OsPath.endswith_sep list_ascii_of_string existsb].
  destruct a as [|c' a].
  - intros H. rewrite Ascii.eqb_sym. by rewrite H.
  - intros H. rewrite (IH H). by rewrite orb_true_r.
Qed.

Lemma basename_after_dir (a b : string) :
  OsPath.endswith_sep a = true → no_sep b = true →
  OsPath.basename (String.append a b) = b.
Proof.
  unfold no_sep. intros Ha Hb. apply negb_true_iff in Hb.
  induction a as [|c a IH]; [discriminate Ha|].
  rewrite append_cons. cbn [OsPath.basename].
  destruct a as [|c' a].
  - change (String.append EmptyString b) with b.
    cbn [OsPath.endswith_sep] in Ha. by rewrite Hb, Ha.
  - rewrite has_sep_app, (endswith_sep_has_sep (String c' a) Ha). cbn [orb].
    by apply IH.
Qed.

Lemma basename_join (a f : string) :
  no_sep f = true → OsPath.basename (OsPath.join a f) = f.
Proof.
  intros Hf. unfold OsPath.join.
  assert (Hs : OsPath.startswith_sep f = false).
  { unfold no_sep in Hf. destruct f as [|c f]; [done|]. cbn in *.
    apply negb_true_iff, orb_false_elim in Hf as [Hc _].
    by rewrite Ascii.eqb_sym. }
  rewrite Hs.
  destruct (String.eqb_spec a EmptyString) as [->|Hne]; cbn [orb].
  - by apply basename_no_sep.
  - destruct (OsPath.endswith_sep a) eqn:He.
    + by apply basename_after_dir.
    + by apply basename_after_sep.
Qed.

(** X1: a row made for the entry [f] of a directory [D] is labelled with
    [f] itself, behind four spaces per level, whenever [f] has no
    separator in it (as the names [os.listdir] returns): joining and
    taking the base name give the name back. *)
Theorem child_row_labelled_by_name
    (w : World) (D f : string) (id lvl : nat) :
  no_sep f = true →
  ∃ d r, value_of (get_git_info w (OsPath.join D f)) = Ok d
         ∧ FolderRow_init id d lvl = Ok r
         ∧ label r = String.append (PyStr.spaces (lvl * 4)) f.
Proof.
  intros Hf.
  destruct (get_git_info_total w (OsPath.join D f) [])
    as (d & tr' & Hrun & Hp & Hg & _).
  exists d. unfold FolderRow_init, dict_path. rewrite Hp, Hg.
  eexists. split; [unfold value_of; by rewrite Hrun|].
  split; [reflexivity|]. cbn [label]. by rewrite basename_join.
Qed.

Lemma child_row_labelled_by_name_witness :
  ∃ d r, value_of (get_git_info work_world "/work/a/x") = Ok d
         ∧ FolderRow_init 7 d 1 = Ok r
         ∧ label r = "    x".
Proof.
  apply (child_row_labelled_by_name work_world "/work/a" "x" 7 1).
  reflexivity.
Defined.

(** ** What a probe can say *)

Lemma py_or_text (w : World) (path cmd : string) :
  py_or (git_text w path cmd) "—" ≠ EmptyString
  ∧ (py_or (git_text w path cmd) "—" = "—"
     ∨ ∃ out s, run_process w (git_argv path cmd) = Ok out ∧ decode out = Ok s
                ∧ PyStr.strip s = py_or (git_text w path cmd) "—").
Proof.
  unfold git_text.
  destruct (run_process w (git_argv path cmd)) as [out|e]; [|by split; [|left]].
  destruct (decode out) as [s|e] eqn:Hd; [|by split; [|left]].
  cbn [py_or]. destruct (String.eqb_spec (PyStr.strip s) EmptyString) as [He|Hne].
  - by split; [|left].
  - split; [exact Hne|]. right. by exists out, s.
Qed.

(** X2: in a repository's result the [branch] and [remote] fields are
    never empty. Each is either the placeholder "—" or the stripped output
    of its query, which then succeeded and printed something. *)
Theorem branch_and_remote_never_empty (w : World) (path : string) :
  path_exists w (OsPath.join path ".git") = true →
  ∃ d b r, value_of (get_git_info w path) = Ok d
    ∧ d !! "branch" = Some (VStr b) ∧ d !! "remote" = Some (VStr r)
    ∧ b ≠ EmptyString ∧ r ≠ EmptyString
    ∧ (b = "—" ∨ ∃ out s, run_process w (git_argv path "rev-parse --abbrev-ref HEAD") = Ok out
                          ∧ decode out = Ok s ∧ PyStr.strip s = b)
    ∧ (r = "—" ∨ ∃ out s, run_process w (git_argv path "remote get-url origin") = Ok out
                          ∧ decode out = Ok s ∧ PyStr.strip s = r).
Proof.
  intros Hm. eexists _, _, _. split.
  { unfold value_of. by rewrite (get_git_info_repo w path [] Hm). }
  split; [reflexivity|]. split; [reflexivity|].
  destruct (py_or_text w path "rev-parse --abbrev-ref HEAD") as [Hb1 Hb2].
  destruct (py_or_text w path "remote get-url origin") as [Hr1 Hr2].
  exact (conj Hb1 (conj Hr1 (conj Hb2 Hr2))).
Qed.

Lemma branch_and_remote_never_empty_witness :
  ∃ d, value_of (get_git_info work_world "/work/b") = Ok d
    ∧ d !! "branch" = Some (VStr "main") ∧ d !! "remote" = Some (VStr "—").
Proof.
  destruct (branch_and_remote_never_empty work_world "/work/b" eq_refl)
    as (d & b & r & Hd & Hb & Hr & _).
  exists d. split; [exact Hd|].
  injection Hd as <-. split; reflexivity.
Defined.

(** ** When the listing fails *)

(** X3: [scan_top_level] raises exactly when [os.listdir] does, and then
    with the same exception, after that one call: no entry is tested and
    nothing is probed. *)
Theorem scan_top_level_raises_with_listdir
    (w : World) (path : string) (tr : list event) :
  (∀ e, listdir w path = Raise e →
        scan_top_level w path tr = (Raise e, tr ++ [EvListDir path]))
  ∧ (∀ e, (scan_top_level w path tr).1 = Raise e → listdir w path = Raise e).
Proof.
  split.
  - intros e He. unfold scan_top_level, os_listdir.
    rewrite !bind_run. unfold emit, lift_result. cbn [fst snd]. by rewrite He.
  - intros e He. destruct (listdir w path) as [names|e'] eqn:Hl.
    + destruct (scan_top_level_run w path names tr Hl) as (infos & tr' & Hrun & _).
      rewrite Hrun in He. discriminate He.
    + unfold scan_top_level, os_listdir in He.
      rewrite !bind_run in He. unfold emit, lift_result in He. cbn [fst snd] in He.
      rewrite Hl in He. cbn in He. by injection He as ->.
Qed.

Lemma scan_top_level_raises_with_listdir_witness :
  scan_top_level work_world "/work/notes.txt" []
  = (Raise OSError, [EvListDir "/work/notes.txt"]).
Proof.
  destruct (scan_top_level_raises_with_listdir work_world "/work/notes.txt" [])
    as [H _].
  apply (H OSError). reflexivity.
Defined.

(** ** Scan Projects, run to its end *)

Lemma seed_loop (w : World) (pl : list thread) (todo : list dict) :
  Forall row_ready todo →
  ∀ (a : App) (tr : list event),
    ∃ s' news,
      run_in w (repeat (Run (length pl)) (S (length todo)))
        {| app := a; pool := pl ++ [SeedAppend todo]; trace := tr |} = Some s'
      ∧ pool s' = pl
      ∧ trace s' = tr
      ∧ rows (app s') = rows a ++ news
      ∧ Forall2 (λ sub r', info r' = sub ∧ level r' = 0) todo news
      ∧ root_input (app s') = root_input a
      ∧ progress_visible (app s') = false
      ∧ status_value (app s') = "✅ Scan complete".
Proof.
  induction 1 as [|sub rest Hsub Hrest IH]; intros a tr.
  - cbn [length repeat]. rewrite run_in_cons, step_run_last. cbn [thread_step].
    eexists _, []. cbn. rewrite app_nil_r. repeat split. constructor.
  - cbn [length repeat]. rewrite run_in_cons, step_run_last. cbn [thread_step].
    destruct (FolderRow_init_ready (next_id a) sub 0 Hsub) as (r & Hr & Hinfo & Hlvl & _).
    rewrite Hr. cbn [mbind option_bind].
    destruct (IH (set_rows (bump_id a) (rows a ++ [r])) tr)
      as (s' & news & Hrun & Hpool & Htr & Hrows & Hall & Hroot & Hprog & Hstat).
    exists s', (r :: news). split; [exact Hrun|]. split; [exact Hpool|].
    split; [exact Htr|]. split.
    + rewrite Hrows. cbn [set_rows rows]. by rewrite <- app_assoc.
    + split; [by constructor|]. split; [exact Hroot|done].
Qed.

(** The whole task of [scan_projects], run without interruption: it
    appends to the table as it finds it. *)
Lemma seed_worker_run (w : World) (root : string) (names : list string)
    (pl : list thread) (a : App) (tr : list event) :
  listdir w root = Ok names →
  ∃ s' news,
    run_in w (repeat (Run (length pl))
                (3 + length (child_directories w root names)))
      {| app := a; pool := pl ++ [SeedBegin root]; trace := tr |} = Some s'
    ∧ pool s' = pl
    ∧ rows (app s') = rows a ++ news
    ∧ Forall2 (λ c r', dict_path (info r') = Ok c
                       ∧ value_of (get_git_info w c) = Ok (info r')
                       ∧ level r' = 0)
        (child_directories w root names) news
    ∧ root_input (app s') = root_input a
    ∧ progress_visible (app s') = false
    ∧ status_value (app s') = "✅ Scan complete".
Proof.
  intros Hl.
  destruct (scan_top_level_run w root names tr Hl)
    as (infos & tr' & Hscan & Hall & _ & _).
  assert (Hready : Forall row_ready infos).
  { clear -Hall. induction Hall as [|c d cs ds [Hv _] _ IH]; constructor; [|exact IH].
    eapply probe_row_ready, Hv. }
  set (a1 := set_status (set_progress a true) "Scanning top-level projects...").
  destruct (seed_loop w pl infos Hready a1 (tr ++ EvListDir root :: tr'))
    as (s' & news & Hrun & Hpool & _ & Hrows & Hnews & Hroot & Hprog & Hstat).
  exists s', news.
  rewrite <- (Forall2_length _ _ _ Hall) in Hrun.
  split; [|split; [exact Hpool|split; [exact Hrows|split; [|split; [exact Hroot|done]]]]].
  - cbn [repeat Nat.add].
    rewrite run_in_cons, step_run_last. cbn [thread_step]. cbn [mbind option_bind].
    rewrite run_in_cons, step_run_last. cbn [thread_step]. rewrite Hscan.
    cbn [mbind option_bind]. exact Hrun.
  - clear -Hall Hnews. revert news Hnews.
    induction Hall as [|c d cs ds [Hv Hc] _ IH]; intros news Hnews.
    + apply Forall2_nil_inv_l in Hnews as ->. constructor.
    + apply Forall2_cons_inv_l in Hnews as (r' & news' & [Hi Hlv] & Hrest & ->).
      constructor; [|by apply IH]. by rewrite Hi.
Qed.

(** X4: Scan Projects on a root that exists and can be listed, run without
    interruption, replaces the table: whatever it held, it then holds one
    row per directory-type entry of the root (the root being the text of
    the field, stripped), in the order of the listing, each at level 0
    with the probe's result for that entry; the progress bar is hidden
    again and the status reads "Scan complete". *)
Theorem seed_replaces_table (w : World) (s : State) (names : list string) :
  path_exists w (PyStr.strip (root_input (app s))) = true →
  listdir w (PyStr.strip (root_input (app s))) = Ok names →
  ∃ s',
    run_in w (ClickScan
                :: repeat (Run (length (pool s)))
                     (3 + length (child_directories w
                                    (PyStr.strip (root_input (app s))) names))) s
      = Some s'
    ∧ pool s' = pool s
    ∧ Forall2 (λ c r', dict_path (info r') = Ok c
                       ∧ value_of (get_git_info w c) = Ok (info r')
                       ∧ level r' = 0)
        (child_directories w (PyStr.strip (root_input (app s))) names)
        (rows (app s'))
    ∧ progress_visible (app s') = false
    ∧ status_value (app s') = "✅ Scan complete".
Proof.
  intros He Hl. destruct s as [a pl tr]. cbn [app pool trace] in *.
  set (root := PyStr.strip (root_input a)) in *.
  destruct (seed_worker_run w root names pl (set_rows a [])
              ((tr ++ [EvExists root]) ++ [EvThreadStart (TSeed root)]) Hl)
    as (s' & news & Hrun & Hpool & Hrows & Hnews & _ & Hprog & Hstat).
  exists s'. split; [|split; [exact Hpool|split; [|done]]].
  - rewrite run_in_cons. cbn [step]. unfold scan_projects, os_path_exists.
    rewrite bind_run. unfold emit. cbn [fst snd app pool trace set_rows root_input].
    rewrite ret_run. fold root. rewrite He. cbn [mbind option_bind]. exact Hrun.
  - rewrite Hrows. exact Hnews.
Qed.

Lemma seed_replaces_table_witness :
  ∃ s', run_in changed_world (ClickScan :: repeat (Run 0) 6) expanded_a = Some s'
        ∧ length (rows (app s')) = 3
        ∧ status_value (app s') = "✅ Scan complete".
Proof.
  destruct (seed_replaces_table changed_world expanded_a
              ["a"; "notes.txt"; "b"; "c"] eq_refl eq_refl)
    as (s' & Hrun & _ & Hrows & _ & Hstat).
  exists s'. split; [exact Hrun|]. split; [|exact Hstat].
  by rewrite <- (Forall2_length _ _ _ Hrows).
Defined.

(** ** Workers that die *)

(** X5: when the root exists but cannot be listed (a file, a directory
    without read permission), the worker of Scan Projects dies of the
    exception: the table stays empty, and nothing hides the progress bar
    or replaces the status "Scanning top-level projects..." again. *)
Theorem unlistable_root_leaves_progress_bar (w : World) (s : State) (e : exn) :
  path_exists w (PyStr.strip (root_input (app s))) = true →
  listdir w (PyStr.strip (root_input (app s))) = Raise e →
  ∃ s',
    run_in w [ClickScan; Run (length (pool s)); Run (length (pool s))] s = Some s'
    ∧ pool s' = pool s
    ∧ rows (app s') = []
    ∧ progress_visible (app s') = true
    ∧ status_value (app s') = "Scanning top-level projects...".
Proof.
  intros He Hl. destruct s as [a pl tr]. cbn [app pool trace] in *.
  set (root := PyStr.strip (root_input a)) in *.
  eexists. split.
  - rewrite run_in_cons. cbn [step]. unfold scan_projects, os_path_exists.
    rewrite bind_run. unfold emit. cbn [fst snd app pool trace set_rows root_input].
    rewrite ret_run. fold root. rewrite He. cbn [mbind option_bind].
    rewrite run_in_cons, step_run_last. cbn [thread_step]. cbn [mbind option_bind].
    rewrite run_in_cons, step_run_last. cbn [thread_step].
    unfold scan_top_level, os_listdir. rewrite !bind_run.
    unfold emit, lift_result. cbn [fst snd]. rewrite Hl.
    cbn [mbind option_bind]. reflexivity.
  - done.
Qed.

Lemma unlistable_root_leaves_progress_bar_witness :
  ∃ s',
    run_in work_world [ClickScan; Run 0; Run 0]
      {| app := set_root_input (app seeded) "/work/notes.txt";
         pool := []; trace := [] |} = Some s'
    ∧ rows (app s') = []
    ∧ progress_visible (app s') = true.
Proof.
  destruct (unlistable_root_leaves_progress_bar work_world
              {| app := set_root_input (app seeded) "/work/notes.txt";
                 pool := []; trace := [] |} OSError eq_refl eq_refl)
    as (s' & Hrun & _ & Hrows & Hprog & _).
  exists s'. split; [exact Hrun|]. split; [exact Hrows|exact Hprog].
Defined.

(** X6: when the directory of the row pressed cannot be listed, the worker
    of the expansion dies of the exception: the table is left as it was,
    the progress bar stays visible and the status keeps reading
    "Rescanning: <name>...". *)
Theorem unlistable_row_leaves_progress_bar
    (w : World) (s : State) (i : nat) (r : FolderRow) (p : string) (e : exn) :
  rows (app s) !! i = Some r →
  dict_path (info r) = Ok p →
  listdir w p = Raise e →
  ∃ s',
    run_in w [ClickRescan i; Run (length (pool s)); Run (length (pool s))] s = Some s'
    ∧ pool s' = pool s
    ∧ rows (app s') = rows (app s)
    ∧ progress_visible (app s') = true
    ∧ status_value (app s')
      = String.append "Rescanning: " (String.append (OsPath.basename p) "...").
Proof.
  intros Hrow Hp Hl. destruct s as [a pl tr]. cbn [app pool trace] in *.
  eexists. split.
  - rewrite run_in_cons. cbn [step app rows]. rewrite Hrow. cbn [mbind option_bind].
    unfold rescan_folder. cbn [app pool trace].
    rewrite run_in_cons, step_run_last. cbn [thread_step]. rewrite Hp.
    cbn [mbind option_bind].
    rewrite run_in_cons, step_run_last. cbn [thread_step]. rewrite Hp.
    unfold scan_top_level, os_listdir. rewrite !bind_run.
    unfold emit, lift_result. cbn [fst snd]. rewrite Hl.
    cbn [mbind option_bind]. reflexivity.
  - done.
Qed.

Lemma seeded_first_row :
  ∃ r, rows (app seeded) !! 0 = Some r
       ∧ dict_path (info r) = Ok "/work/a"
       ∧ length (rows (app seeded)) = 3.
Proof. vm_compute. eexists. repeat split; reflexivity. Qed.

Lemma unlistable_row_leaves_progress_bar_witness :
  ∃ s',
    run_in broken_world [ClickRescan 0; Run 0; Run 0] seeded = Some s'
    ∧ rows (app s') = rows (app seeded)
    ∧ progress_visible (app s') = true
    ∧ status_value (app s') = "Rescanning: a...".
Proof.
  destruct seeded_first_row as (r & Hr & Hp & _).
  destruct (unlistable_row_leaves_progress_bar broken_world seeded 0 r "/work/a"
              OSError Hr Hp eq_refl)
    as (s' & Hrun & _ & Hrows & Hprog & Hstat).
  exists s'. split; [exact Hrun|]. split; [exact Hrows|].
  split; [exact Hprog|exact Hstat].
Defined.

(** X7: a Scan Projects pressed while an expansion is in flight makes the
    expansion void. If the table is cleared after the worker has listed
    the directory but before it looks its row up, [rows.index] does not
    find the row, the worker dies there, and none of the entries it had
    listed is inserted: the table is as the Scan Projects left it. *)
Theorem cleared_row_voids_expansion
    (w : World) (s : State) (i : nat) (r : FolderRow) (p : string)
    (names : list string) :
  rows (app s) !! i = Some r →
  dict_path (info r) = Ok p →
  listdir w p = Ok names →
  ∃ s',
    run_in w [ClickRescan i; Run (length (pool s)); Run (length (pool s));
              ClickScan; Run (length (pool s))] s = Some s'
    ∧ rows (app s') = []
    ∧ pool s'
      = pool s
        ++ (if path_exists w (PyStr.strip (root_input (app s)))
            then [SeedBegin (PyStr.strip (root_input (app s)))] else []).
Proof.
  intros Hrow Hp Hl. destruct s as [a pl tr]. cbn [app pool trace] in *.
  destruct (scan_top_level_run w p names (tr ++ [EvThreadStart (TRescan (info r))]) Hl)
    as (infos & tr' & Hscan & _).
  assert (Hfirst : ∀ rest,
    run_in w (ClickRescan i :: Run (length pl) :: Run (length pl) :: ClickScan :: rest)
      {| app := a; pool := pl; trace := tr |}
    = run_in w rest
        (scan_projects w
           {| app := set_status (set_progress a true)
                       (String.append "Rescanning: "
                          (String.append (OsPath.basename p) "..."));
              pool := pl ++ [RescanIndex (info r) r infos];
              trace := (tr ++ [EvThreadStart (TRescan (info r))])
                         ++ EvListDir p :: tr' |})).
  { intros rest.
    rewrite run_in_cons. cbn [step app rows]. rewrite Hrow. cbn [mbind option_bind].
    unfold rescan_folder. cbn [app pool trace].
    rewrite run_in_cons, step_run_last. cbn [thread_step]. rewrite Hp.
    cbn [mbind option_bind].
    rewrite run_in_cons, step_run_last. cbn [thread_step]. rewrite Hp, Hscan.
    cbn [mbind option_bind]. rewrite run_in_cons. reflexivity. }
  rewrite Hfirst. unfold scan_projects, os_path_exists.
  rewrite bind_run. unfold emit.
  cbn [fst snd app pool trace set_rows set_status set_progress root_input].
  rewrite ret_run.
  destruct (path_exists w (PyStr.strip (root_input a))).
  - eexists. split.
    { rewrite run_in_cons. cbn [step pool app trace].
      assert (Hpool : (pl ++ [RescanIndex (info r) r infos])
                        ++ [SeedBegin (PyStr.strip (root_input a))]
                      = pl ++ RescanIndex (info r) r infos
                             :: [SeedBegin (PyStr.strip (root_input a))])
        by (by rewrite <- app_assoc).
      rewrite Hpool, list_lookup_middle by done.
      cbn [mbind option_bind thread_step rows index_of].
      rewrite delete_middle. reflexivity. }
    split; reflexivity.
  - eexists. split.
    { rewrite run_in_cons, step_run_last.
      cbn [thread_step rows set_status index_of]. reflexivity. }
    split; [reflexivity|]. cbn [pool]. by rewrite app_nil_r.
Qed.

Lemma cleared_row_voids_expansion_witness :
  ∃ s',
    run_in work_world [ClickRescan 0; Run 0; Run 0; ClickScan; Run 0] seeded = Some s'
    ∧ rows (app s') = []
    ∧ pool s' = [SeedBegin "/work"].
Proof.
  destruct seeded_first_row as (r & Hr & Hp & _).
  destruct (cleared_row_voids_expansion work_world seeded 0 r "/work/a"
              [".git"; "x"] Hr Hp eq_refl)
    as (s' & Hrun & Hrows & Hpool).
  exists s'. split; [exact Hrun|]. split; [exact Hrows|exact Hpool].
Defined.

(** ** Invariants of the reachable states *)

Lemma probed_mono (ws ws' : list World) (d : dict) :
  probed ws d → probed (ws ++ ws') d.
Proof.
  intros (w & p & Hw & H). exists w, p. split; [|exact H].
  apply elem_of_app. by left.
Qed.

Lemma row_sound_mono (ws ws' : list World) (r : FolderRow) :
  row_sound ws r → row_sound (ws ++ ws') r.
Proof.
  intros (w & p & Hw & H). exists w, p. split; [|exact H].
  apply elem_of_app. by left.
Qed.

Lemma thread_sound_mono (ws ws' : list World) (t : thread) :
  thread_sound ws t → thread_sound (ws ++ ws') t.
Proof.
  intros [Htodo Hinfo]. split.
  - eapply Forall_impl; [exact Htodo|]. intros d. apply probed_mono.
  - intros d Hd. by apply probed_mono, Hinfo.
Qed.

Lemma sound_mono (ws ws' : list World) (s : State) :
  sound ws s → sound (ws ++ ws') s.
Proof.
  intros [Hrows Hpool]. split.
  - eapply Forall_impl; [exact Hrows|]. intros r. apply row_sound_mono.
  - eapply Forall_impl; [exact Hpool|]. intros t. apply thread_sound_mono.
Qed.

Lemma row_sound_probed (ws : list World) (r : FolderRow) :
  row_sound ws r → probed ws (info r).
Proof. intros (w & p & Hw & Hv & Hp & _). by exists w, p. Qed.

(** [FolderRow] accepts every result of a probe. *)
Lemma FolderRow_init_probed (ws : list World) (id : nat) (d : dict) (lvl : nat) :
  probed ws d → lvl ≤ 1 →
  ∃ r, FolderRow_init id d lvl = Ok r ∧ info r = d ∧ level r = lvl ∧ row_sound ws r.
Proof.
  intros (w & p & Hw & Hv & Hp) Hlvl.
  destruct (get_git_info_total w p []) as (d' & tr' & Hrun & _ & Hg & _).
  assert (Hd : d' = d).
  { unfold value_of in Hv. rewrite Hrun in Hv. by injection Hv. }
  subst d'. unfold FolderRow_init. rewrite Hp, Hg.
  eexists. split; [reflexivity|]. split; [reflexivity|]. split; [reflexivity|].
  exists w, p. cbn [info level label git_mark truth].
  split; [exact Hw|]. split; [exact Hv|]. split; [exact Hp|].
  split; [exact Hlvl|]. split; reflexivity.
Qed.

Lemma scan_top_level_raise_inv (w : World) (path : string) (tr tr' : list event)
    (e : exn) :
  scan_top_level w path tr = (Raise e, tr') → listdir w path = Raise e.
Proof.
  intros H. destruct (listdir w path) as [names|e'] eqn:Hl.
  - destruct (scan_top_level_run w path names tr Hl) as (infos & tr0 & Hrun & _).
    rewrite Hrun in H. discriminate H.
  - unfold scan_top_level, os_listdir in H.
    rewrite !bind_run in H. unfold emit, lift_result in H. cbn [fst snd] in H.
    rewrite Hl in H. by injection H as -> _.
Qed.

Lemma scan_top_level_probed (ws : list World) (w : World) (path : string)
    (tr tr' : list event) (subs : list dict) :
  w ∈ ws →
  scan_top_level w path tr = (Ok subs, tr') → Forall (probed ws) subs.
Proof.
  intros Hw H. destruct (listdir w path) as [names|e'] eqn:Hl.
  - destruct (scan_top_level_run w path names tr Hl) as (infos & tr0 & Hrun & Hall & _).
    rewrite Hrun in H. injection H as -> _.
    clear -Hall Hw. induction Hall as [|c d cs ds [Hv Hc] _ IH]; constructor.
    + by exists w, c.
    + exact IH.
  - unfold scan_top_level, os_listdir in H.
    rewrite !bind_run in H. unfold emit, lift_result in H. cbn [fst snd] in H.
    rewrite Hl in H. discriminate H.
Qed.

Lemma list_insert_at_Forall {A} (P : A → Prop) (k : nat) (x : A) (l : list A) :
  P x → Forall P l → Forall P (list_insert_at k x l).
Proof.
  intros Hx Hl. unfold list_insert_at. apply Forall_app. split.
  - by apply Forall_take.
  - constructor; [exact Hx|by apply Forall_drop].
Qed.

Lemma thread_step_sound (ws : list World) (w : World) (th : thread) (a : App)
    (tr : list event) :
  w ∈ ws → Forall (row_sound ws) (rows a) → thread_sound ws th →
  Forall (row_sound ws) (rows (thread_step w th a tr).1.1)
  ∧ ∀ th', (thread_step w th a tr).1.2 = Some th' → thread_sound ws th'.
Proof.
  intros Hw Hrows [Htodo Hinfo].
  destruct th as [d r|d r|d r subs|d k todo|root|root|todo];
    cbn [thread_step todo_of expanded_info] in *.
  - destruct (dict_path d) as [p|e]; cbn [fst snd set_status set_progress rows].
    + split; [exact Hrows|]. intros th' [= <-]. split; [constructor|exact Hinfo].
    + split; [exact Hrows|]. intros th' [=].
  - destruct (dict_path d) as [p|e]; [|by split; [exact Hrows|intros th' [=]]].
    destruct (scan_top_level w p tr) as [[subs|e] tr'] eqn:Hscan; cbn [fst snd].
    + split; [exact Hrows|]. intros th' [= <-]. split; [|exact Hinfo].
      by eapply scan_top_level_probed.
    + split; [exact Hrows|]. intros th' [=].
  - destruct (index_of (row_id r) (rows a)) as [i|]; cbn [fst snd].
    + split; [exact Hrows|]. intros th' [= <-]. by split.
    + split; [exact Hrows|]. intros th' [=].
  - destruct todo as [|sub rest].
    + destruct (dict_path d) as [p|e]; cbn [fst snd set_status set_progress rows];
        (split; [exact Hrows|intros th' [=]]).
    + apply Forall_cons in Htodo as [Hsub Hrest].
      destruct (FolderRow_init_probed ws (next_id a) sub 1 Hsub (le_n 1))
        as (r & Hr & _ & _ & Hsound).
      rewrite Hr. cbn [fst snd set_rows rows]. split.
      * by apply list_insert_at_Forall.
      * intros th' [= <-]. by split.
  - cbn [fst snd set_status set_progress rows].
    split; [exact Hrows|]. intros th' [= <-]. split; [constructor|intros ? [=]].
  - destruct (scan_top_level w root tr) as [[subs|e] tr'] eqn:Hscan; cbn [fst snd].
    + split; [exact Hrows|]. intros th' [= <-]. split; [|intros ? [=]].
      by eapply scan_top_level_probed.
    + split; [exact Hrows|]. intros th' [=].
  - destruct todo as [|sub rest].
    + cbn [fst snd set_status set_progress rows].
      split; [exact Hrows|intros th' [=]].
    + apply Forall_cons in Htodo as [Hsub Hrest].
      destruct (FolderRow_init_probed ws (next_id a) sub 0 Hsub (le_S 0 0 (le_n 0)))
        as (r & Hr & _ & _ & Hsound).
      rewrite Hr. cbn [fst snd set_rows rows]. split.
      * apply Forall_app. split; [exact Hrows|by constructor].
      * intros th' [= <-]. split; [exact Hrest|intros ? [=]].
Qed.

Lemma step_sound (ws : list World) (w : World) (act : action) (s s' : State) :
  sound ws s → step w act s = Some s' → sound (ws ++ [w]) s'.
Proof.
  intros Hs Hstep. apply (sound_mono ws [w]) in Hs. destruct Hs as [Hrows Hpool].
  assert (Hw : w ∈ ws ++ [w]) by (apply elem_of_app; right; by apply list_elem_of_singleton).
  destruct act as [|i|v|t]; cbn [step] in Hstep.
  - injection Hstep as <-. unfold scan_projects, os_path_exists.
    rewrite bind_run. unfold emit. cbn [fst snd]. rewrite ret_run.
    destruct (path_exists w (PyStr.strip (root_input (set_rows (app s) [])))).
    + split; cbn [app pool set_rows rows]; [constructor|].
      apply Forall_app. split; [exact Hpool|].
      constructor; [|constructor]. split; [constructor|intros ? [=]].
    + split; cbn [app pool set_rows set_status rows]; [constructor|exact Hpool].
  - destruct (rows (app s) !! i) as [r|] eqn:Hr; [|discriminate Hstep].
    injection Hstep as <-. split; cbn [rescan_folder app pool]; [exact Hrows|].
    apply Forall_app. split; [exact Hpool|]. constructor; [|constructor].
    split; [constructor|]. intros d [= <-]. eapply row_sound_probed.
    eapply Forall_lookup_1; [exact Hrows|exact Hr].
  - injection Hstep as <-. by split.
  - destruct (pool s !! t) as [th|] eqn:Hth; [|discriminate Hstep]. cbn in Hstep.
    assert (Hsth : thread_sound (ws ++ [w]) th)
      by (eapply Forall_lookup_1; [exact Hpool|exact Hth]).
    destruct (thread_step_sound (ws ++ [w]) w th (app s) (trace s) Hw Hrows Hsth)
      as [Hrows' Hth'].
    destruct (thread_step w th (app s) (trace s)) as [[a' [th'|]] tr'];
      injection Hstep as <-; cbn [fst snd] in *; (split; cbn [app pool]; [exact Hrows'|]).
    + apply Forall_insert; [exact Hpool|]. by apply Hth'.
    + by apply Forall_delete.
Qed.

Lemma run_sound (acts : list (World * action)) :
  ∀ ws s s', sound ws s → run acts s = Some s' → sound (ws ++ acts.*1) s'.
Proof.
  induction acts as [|[w act] rest IH]; intros ws s s' Hs Hrun.
  - injection Hrun as <-. by apply sound_mono.
  - cbn [run] in Hrun.
    destruct (step w act s) as [s1|] eqn:Hstep; [|discriminate Hrun].
    cbn in Hrun. cbn [fmap list_fmap fst].
    change (ws ++ w :: rest.*1) with (ws ++ [w] ++ rest.*1). rewrite app_assoc.
    eapply IH; [|exact Hrun]. by eapply step_sound.
Qed.

Lemma reachable_sound (acts : list (World * action)) (s : State) :
  run acts initial = Some s → sound (acts.*1) s.
Proof.
  intros Hrun. apply (run_sound acts [] initial s); [|exact Hrun].
  split; constructor.
Qed.

(** X8: whatever the operator does and however the workers interleave,
    every row of the table was built by [FolderRow] from the result of a
    probe made in one of the worlds the run went through: its dictionary
    is that result, its label is the base name of the probed path behind
    four spaces per level, its mark tells whether the path held a [.git]
    entry then, and its level is 0 or 1, never deeper. *)
Theorem reachable_rows_are_probe_results
    (acts : list (World * action)) (s : State) (r : FolderRow) :
  run acts initial = Some s →
  r ∈ rows (app s) →
  ∃ w p, w ∈ acts.*1
    ∧ value_of (get_git_info w p) = Ok (info r)
    ∧ dict_path (info r) = Ok p
    ∧ level r ≤ 1
    ∧ label r = String.append (PyStr.spaces (level r * 4)) (OsPath.basename p)
    ∧ git_mark r = (if path_exists w (OsPath.join p ".git") then "✅" else "❌").
Proof.
  intros Hrun Hr. destruct (reachable_sound acts s Hrun) as [Hrows _].
  rewrite Forall_forall in Hrows. exact (Hrows r Hr).
Qed.

Lemma seed_session_run :
  run (map (pair work_world)
         [TypeRoot "/work"; ClickScan; Run 0; Run 0; Run 0; Run 0; Run 0; Run 0])
    initial = Some seeded.
Proof. vm_compute. reflexivity. Qed.

Lemma reachable_rows_are_probe_results_witness :
  ∃ r w p, rows (app seeded) !! 0 = Some r
           ∧ value_of (get_git_info w p) = Ok (info r)
           ∧ level r ≤ 1.
Proof.
  destruct seeded_first_row as (r & Hr & _).
  destruct (reachable_rows_are_probe_results _ seeded r seed_session_run
              (list_elem_of_lookup_2 _ _ _ Hr))
    as (w & p & _ & Hv & _ & Hl & _).
  exists r, w, p. split; [exact Hr|]. split; [exact Hv|exact Hl].
Defined.

(** X9: in a reachable state a worker ends in five ways only. Its listing
    raises (either task), [rows.index] does not find the row it expands,
    or it is through with its list and writes its closing status. Building
    a row and reading [info["path"]] never end it: the [KeyError] and
    [TypeError] that [FolderRow] and the status lines could raise on an
    arbitrary dictionary do not occur on the dictionaries that reach
    them. *)
Theorem workers_end_at_listing_index_or_done
    (acts : list (World * action)) (s : State) (w : World) (t : nat) (th : thread) :
  run acts initial = Some s →
  pool s !! t = Some th →
  (thread_step w th (app s) (trace s)).1.2 = None →
  (∃ d r p e, th = RescanList d r ∧ dict_path d = Ok p ∧ listdir w p = Raise e)
  ∨ (∃ root e, th = SeedList root ∧ listdir w root = Raise e)
  ∨ (∃ d r subs, th = RescanIndex d r subs
                 ∧ index_of (row_id r) (rows (app s)) = None)
  ∨ (∃ d k p, th = RescanInsert d k [] ∧ dict_path d = Ok p
              ∧ (thread_step w th (app s) (trace s)).1.1
                = set_status (set_progress (app s) false)
                    (String.append "✅ Finished " (OsPath.basename p)))
  ∨ (th = SeedAppend []
     ∧ (thread_step w th (app s) (trace s)).1.1
       = set_status (set_progress (app s) false) "✅ Scan complete").
Proof.
  intros Hrun Hth Hend.
  destruct (reachable_sound acts s Hrun) as [_ Hpool].
  assert (Hs : thread_sound (acts.*1) th)
    by (eapply Forall_lookup_1; [exact Hpool|exact Hth]).
  destruct Hs as [Htodo Hinfo].
  destruct th as [d r|d r|d r subs|d k todo|root|root|todo];
    cbn [thread_step todo_of expanded_info] in *.
  - destruct (Hinfo d eq_refl) as (w0 & p & _ & _ & Hp).
    rewrite Hp in Hend. discriminate Hend.
  - destruct (Hinfo d eq_refl) as (w0 & p & _ & _ & Hp).
    rewrite Hp in Hend.
    destruct (scan_top_level w p (trace s)) as [[subs|e] tr'] eqn:Hscan;
      [discriminate Hend|].
    left. exists d, r, p, e. split; [reflexivity|]. split; [exact Hp|].
    by eapply scan_top_level_raise_inv.
  - destruct (index_of (row_id r) (rows (app s))) as [i|] eqn:Hi;
      [discriminate Hend|].
    right. right. left. by exists d, r, subs.
  - destruct todo as [|sub rest].
    + destruct (Hinfo d eq_refl) as (w0 & p & _ & _ & Hp).
      rewrite Hp. right. right. right. left. by exists d, k, p.
    + apply Forall_cons in Htodo as [Hsub _].
      destruct (FolderRow_init_probed _ (next_id (app s)) sub 1 Hsub (le_n 1))
        as (r & Hr & _).
      rewrite Hr in Hend. discriminate Hend.
  - discriminate Hend.
  - destruct (scan_top_level w root (trace s)) as [[subs|e] tr'] eqn:Hscan;
      [discriminate Hend|].
    right. left. exists root, e. split; [reflexivity|].
    by eapply scan_top_level_raise_inv.
  - destruct todo as [|sub rest].
    + right. right. right. right. by split.
    + apply Forall_cons in Htodo as [Hsub _].
      destruct (FolderRow_init_probed _ (next_id (app s)) sub 0 Hsub
                  (le_S 0 0 (le_n 0)))
        as (r & Hr & _).
      rewrite Hr in Hend. discriminate Hend.
Qed.

Lemma workers_end_at_listing_index_or_done_witness :
  ∃ e, pool seeding_a_file !! 0 = Some (SeedList "/work/notes.txt")
       ∧ listdir work_world "/work/notes.txt" = Raise e.
Proof.
  assert (Hrun : run (map (pair work_world)
                        [TypeRoot "/work/notes.txt"; ClickScan; Run 0]) initial
                 = Some seeding_a_file) by (vm_compute; reflexivity).
  assert (Hth : pool seeding_a_file !! 0 = Some (SeedList "/work/notes.txt"))
    by (vm_compute; reflexivity).
  assert (Hend : (thread_step work_world (SeedList "/work/notes.txt")
                    (app seeding_a_file) (trace seeding_a_file)).1.2 = None)
    by (vm_compute; reflexivity).
  destruct (workers_end_at_listing_index_or_done _ seeding_a_file work_world 0
              (SeedList "/work/notes.txt") Hrun Hth Hend)
    as [(d & r & p & e & Heq & _)
       |[(root & e & Heq & Hl)
        |[(d & r & subs & Heq & _)
         |[(d & k & p & Heq & _)|[Heq _]]]]];
    try discriminate Heq.
  injection Heq as <-. exists e. split; [exact Hth|exact Hl].
Defined.

(** ** The processes the scan engine starts *)

Lemma exec_sound_mono (ws ws' : list World) (e : event) :
  exec_sound ws e → exec_sound (ws ++ ws') e.
Proof.
  intros H argv Heq. destruct (H argv Heq) as (w & c & cmd & Hw & Hrest).
  exists w, c, cmd. split; [|exact Hrest]. apply elem_of_app. by left.
Qed.

Lemma get_git_info_execs (ws : list World) (w : World) (c : string) :
  w ∈ ws → path_isdir w c = true →
  Forall (exec_sound ws) (trace_of (get_git_info w c)).
Proof.
  intros Hw Hd. unfold trace_of.
  destruct (path_exists w (OsPath.join c ".git")) eqn:Hm.
  - rewrite (get_git_info_repo w c [] Hm). cbn [snd app probe_queries].
    repeat apply Forall_cons_2; [| | | | |apply Forall_nil_2];
      intros argv Heq; [discriminate Heq|..]; injection Heq as <-;
      exists w, c; eexists; (split; [exact Hw|]); (split; [exact Hd|]);
      (split; [exact Hm|]); (split; [|reflexivity]);
      unfold probe_commands; set_solver.
  - rewrite (get_git_info_plain w c [] Hm). cbn [snd app].
    apply Forall_cons_2; [|apply Forall_nil_2]. intros argv Heq. discriminate Heq.
Qed.

Lemma scan_entries_execs (ws : list World) (w : World) (path : string)
    (names : list string) :
  w ∈ ws →
  ∀ tr, ∃ res tr',
    scan_entries w path names tr = (res, tr ++ tr') ∧ Forall (exec_sound ws) tr'.
Proof.
  intros Hw. induction names as [|f rest IH]; intros tr.
  - exists (Ok []), []. split; [by rewrite app_nil_r|constructor].
  - cbn [scan_entries]. unfold os_path_isdir.
    rewrite !bind_run. unfold emit. cbn [fst snd]. rewrite ret_run.
    assert (Hdir : exec_sound ws (EvIsDir (OsPath.join path f)))
      by (intros argv Heq; discriminate Heq).
    destruct (path_isdir w (OsPath.join path f)) eqn:Hd.
    + rewrite bind_run, get_git_info_framed.
      pose proof (get_git_info_execs ws w (OsPath.join path f) Hw Hd) as Hg.
      destruct (value_of (get_git_info w (OsPath.join path f))) as [d|e].
      * rewrite bind_run.
        destruct (IH ((tr ++ [EvIsDir (OsPath.join path f)])
                        ++ trace_of (get_git_info w (OsPath.join path f))))
          as (res & tr' & Hrest & Hq).
        rewrite Hrest.
        exists (match res with
                | Ok tl => Ok ((d ∪ {["path" := VStr (OsPath.join path f)]}) :: tl)
                | Raise e => Raise e
                end),
          (EvIsDir (OsPath.join path f)
             :: trace_of (get_git_info w (OsPath.join path f)) ++ tr').
        split.
        -- rewrite <- !app_assoc. by destruct res.
        -- constructor; [exact Hdir|]. apply Forall_app. by split.
      * exists (Raise e),
          (EvIsDir (OsPath.join path f)
             :: trace_of (get_git_info w (OsPath.join path f))).
        split; [by rewrite <- !app_assoc|]. by constructor.
    + destruct (IH (tr ++ [EvIsDir (OsPath.join path f)])) as (res & tr' & Hrest & Hq).
      rewrite Hrest. exists res, (EvIsDir (OsPath.join path f) :: tr').
      split; [by rewrite <- !app_assoc|]. by constructor.
Qed.

Lemma scan_top_level_execs (ws : list World) (w : World) (q : string)
    (tr : list event) :
  w ∈ ws → Forall (exec_sound ws) tr →
  Forall (exec_sound ws) (scan_top_level w q tr).2.
Proof.
  intros Hw Htr. unfold scan_top_level, os_listdir.
  rewrite !bind_run. unfold emit, lift_result. cbn [fst snd].
  assert (Hl : Forall (exec_sound ws) (tr ++ [EvListDir q])).
  { apply Forall_app. split; [exact Htr|].
    apply Forall_cons_2; [|apply Forall_nil_2]. intros argv Heq. discriminate Heq. }
  destruct (listdir w q) as [names|e]; [|exact Hl].
  destruct (scan_entries_execs ws w q names Hw (tr ++ [EvListDir q]))
    as (res & tr' & Hrun & Hq).
  rewrite Hrun. cbn [snd]. apply Forall_app. by split.
Qed.

Lemma thread_step_execs (ws : list World) (w : World) (th : thread) (a : App)
    (tr : list event) :
  w ∈ ws → Forall (exec_sound ws) tr →
  Forall (exec_sound ws) (thread_step w th a tr).2.
Proof.
  intros Hw Htr.
  destruct th as [d r|d r|d r subs|d k todo|root|root|todo]; cbn [thread_step].
  - by destruct (dict_path d).
  - destruct (dict_path d) as [p|e]; [|exact Htr].
    pose proof (scan_top_level_execs ws w p tr Hw Htr) as H.
    by destruct (scan_top_level w p tr) as [[subs|e] tr'].
  - by destruct (index_of (row_id r) (rows a)).
  - destruct todo as [|sub rest].
    + by destruct (dict_path d).
    + by destruct (FolderRow_init (next_id a) sub 1).
  - exact Htr.
  - pose proof (scan_top_level_execs ws w root tr Hw Htr) as H.
    by destruct (scan_top_level w root tr) as [[subs|e] tr'].
  - destruct todo as [|sub rest]; [exact Htr|].
    by destruct (FolderRow_init (next_id a) sub 0).
Qed.

Lemma step_execs (ws : list World) (w : World) (act : action) (s s' : State) :
  Forall (exec_sound ws) (trace s) → step w act s = Some s' →
  Forall (exec_sound (ws ++ [w])) (trace s').
Proof.
  intros Htr Hstep.
  assert (Htr' : Forall (exec_sound (ws ++ [w])) (trace s)).
  { eapply Forall_impl; [exact Htr|]. intros e. apply exec_sound_mono. }
  assert (Hw : w ∈ ws ++ [w])
    by (apply elem_of_app; right; by apply list_elem_of_singleton).
  clear Htr. destruct act as [|i|v|t]; cbn [step] in Hstep.
  - injection Hstep as <-. unfold scan_projects, os_path_exists.
    rewrite bind_run. unfold emit. cbn [fst snd]. rewrite ret_run.
    assert (He : Forall (exec_sound (ws ++ [w]))
                   (trace s ++ [EvExists (PyStr.strip (root_input (set_rows (app s) [])))])).
    { apply Forall_app. split; [exact Htr'|].
      apply Forall_cons_2; [|apply Forall_nil_2]. intros argv Heq. discriminate Heq. }
    destruct (path_exists w (PyStr.strip (root_input (set_rows (app s) []))));
      cbn [trace]; [|exact He].
    apply Forall_app. split; [exact He|].
    apply Forall_cons_2; [|apply Forall_nil_2]. intros argv Heq. discriminate Heq.
  - destruct (rows (app s) !! i) as [r|]; [|discriminate Hstep].
    injection Hstep as <-. cbn [rescan_folder trace].
    apply Forall_app. split; [exact Htr'|].
    apply Forall_cons_2; [|apply Forall_nil_2]. intros argv Heq. discriminate Heq.
  - by injection Hstep as <-.
  - destruct (pool s !! t) as [th|]; [|discriminate Hstep]. cbn in Hstep.
    pose proof (thread_step_execs (ws ++ [w]) w th (app s) (trace s) Hw Htr') as H.
    destruct (thread_step w th (app s) (trace s)) as [[a' [th'|]] tr'];
      by injection Hstep as <-.
Qed.

Lemma run_execs (acts : list (World * action)) :
  ∀ ws s s', Forall (exec_sound ws) (trace s) → run acts s = Some s' →
             Forall (exec_sound (ws ++ acts.*1)) (trace s').
Proof.
  induction acts as [|[w act] rest IH]; intros ws s s' Hs Hrun.
  - injection Hrun as <-. eapply Forall_impl; [exact Hs|].
    intros e. apply exec_sound_mono.
  - cbn [run] in Hrun.
    destruct (step w act s) as [s1|] eqn:Hstep; [|discriminate Hrun].
    cbn in Hrun. cbn [fmap list_fmap fst].
    change (ws ++ w :: rest.*1) with (ws ++ [w] ++ rest.*1). rewrite app_assoc.
    eapply IH; [|exact Hrun]. by eapply step_execs.
Qed.

(** X10: the only processes the scan engine ever starts are the four git
    queries of a probe. Whatever the operator does and however the
    workers interleave, every command executed is [git -C c] followed by
    the words of one of the four queries, for a path [c] that was, when
    the command ran, a directory holding a [.git] entry. *)
Theorem only_probe_queries_are_executed
    (acts : list (World * action)) (s : State) (argv : list string) :
  run acts initial = Some s →
  EvExec argv ∈ trace s →
  ∃ w c cmd, w ∈ acts.*1
    ∧ path_isdir w c = true
    ∧ path_exists w (OsPath.join c ".git") = true
    ∧ cmd ∈ probe_commands
    ∧ argv = ["git"; "-C"; c] ++ PyStr.split cmd.
Proof.
  intros Hrun Hin.
  pose proof (run_execs acts [] initial s (Forall_nil_2 _) Hrun) as Hall.
  rewrite Forall_forall in Hall.
  exact (Hall (EvExec argv) Hin argv eq_refl).
Qed.

Lemma seeded_ran_status :
  EvExec ["git"; "-C"; "/work/a"; "status"; "--porcelain"] ∈ trace seeded.
Proof. apply list_elem_of_In. vm_compute. tauto. Qed.

Lemma only_probe_queries_are_executed_witness :
  ∃ w c cmd,
    path_exists w (OsPath.join c ".git") = true
    ∧ cmd ∈ probe_commands
    ∧ ["git"; "-C"; "/work/a"; "status"; "--porcelain"]
      = ["git"; "-C"; c] ++ PyStr.split cmd.
Proof.
  destruct (only_probe_queries_are_executed _ seeded _ seed_session_run
              seeded_ran_status)
    as (w & c & cmd & _ & _ & Hm & Hcmd & Heq).
  exists w, c, cmd. split; [exact Hm|]. split; [exact Hcmd|exact Heq].
Defined.

(** ** Rows and their identities *)

Lemma click_scan_found (acts : list (World * action)) :
  forallb (λ wa, negb (is_click_scan wa.2)) acts = false →
  ∃ w, (w, ClickScan) ∈ acts.
Proof.
  induction acts as [|[w act] rest IH]; [discriminate|].
  cbn [forallb]. intros H. apply andb_false_iff in H as [H|H].
  - destruct act; try discriminate H. exists w. by left.
  - destruct (IH H) as [w' Hw']. exists w'. by right.
Qed.

(** X11: a row leaves the table only when Scan Projects is pressed. If a
    row of the table is no longer in it after some actions, in any worlds
    and in any interleaving of the workers, then one of these actions was
    a press of Scan Projects. *)
Theorem rows_vanish_only_by_scan_projects
    (acts : list (World * action)) (s s' : State) (r : FolderRow) :
  run acts s = Some s' →
  r ∈ rows (app s) →
  r ∉ rows (app s') →
  ∃ w, (w, ClickScan) ∈ acts.
Proof.
  intros Hrun Hin Hout.
  destruct (forallb (λ wa, negb (is_click_scan wa.2)) acts) eqn:Hno;
    [|by apply click_scan_found].
  exfalso. apply Hout. eapply elem_of_sublist; [exact Hin|].
  by eapply rescan_never_discards.
Qed.

Lemma rows_vanish_only_by_scan_projects_witness :
  ∃ w, (w, ClickScan) ∈ [(work_world, ClickScan)].
Proof.
  destruct seeded_first_row as (r & Hr & _).
  assert (Hrows : rows (app (scan_projects work_world seeded)) = [])
    by (vm_compute; reflexivity).
  apply (rows_vanish_only_by_scan_projects [(work_world, ClickScan)] seeded
           (scan_projects work_world seeded) r).
  - reflexivity.
  - eapply list_elem_of_lookup_2, Hr.
  - rewrite Hrows. apply not_elem_of_nil.
Defined.

Lemma run_ids_fresh (acts : list (World * action)) :
  ∀ s s', ids_fresh (app s) → run acts s = Some s' → ids_fresh (app s').
Proof.
  induction acts as [|[w act] rest IH]; intros s s' Hf Hrun.
  - by injection Hrun as <-.
  - cbn [run] in Hrun.
    destruct (step w act s) as [s1|] eqn:Hstep; [|discriminate Hrun].
    cbn in Hrun. eapply IH; [|exact Hrun]. by eapply step_ids_fresh.
Qed.

(** X12: no row object is ever in the table twice. In every reachable
    state the rows are pairwise distinct objects, all allocated before the
    next one to come, so two positions that hold the same object are one
    position and [rows.index(row_obj)] is the position of the row
    pressed, not that of an earlier copy. *)
Theorem table_rows_are_distinct_objects
    (acts : list (World * action)) (s : State) (i j : nat) (r r' : FolderRow) :
  run acts initial = Some s →
  rows (app s) !! i = Some r →
  rows (app s) !! j = Some r' →
  row_id r = row_id r' →
  i = j ∧ row_id r < next_id (app s)
  ∧ index_of (row_id r) (rows (app s)) = Some i.
Proof.
  intros Hrun Hi Hj Hid.
  assert (Hf : ids_fresh (app s)).
  { apply (run_ids_fresh acts initial s); [|exact Hrun]. split; constructor. }
  destruct Hf as [Hnd Hlt].
  pose proof (index_of_unique _ _ _ Hnd Hi) as Hii.
  pose proof (index_of_unique _ _ _ Hnd Hj) as Hjj.
  rewrite <- Hid, Hii in Hjj. injection Hjj as ->.
  split; [reflexivity|]. split; [|exact Hii].
  rewrite Forall_forall in Hlt. apply Hlt. eapply list_elem_of_lookup_2, Hi.
Qed.

Lemma table_rows_are_distinct_objects_witness :
  ∃ r, rows (app seeded) !! 0 = Some r
       ∧ index_of (row_id r) (rows (app seeded)) = Some 0.
Proof.
  destruct seeded_first_row as (r & Hr & _).
  destruct (table_rows_are_distinct_objects _ seeded 0 0 r r seed_session_run
              Hr Hr eq_refl)
    as (_ & _ & Hidx).
  exists r. split; [exact Hr|exact Hidx].
Defined.

(** ** The fourth query *)

(** X13: the last-commit query is run and its answer thrown away. In a
    repository the probe executes [git log -1 --format=%cd], but two
    worlds that differ in nothing but the answer to it give the same
    result: no field depends on it. *)
Theorem last_commit_query_is_discarded (w w' : World) (path : string) :
  path_exists w (OsPath.join path ".git") = true →
  path_exists w' (OsPath.join path ".git") = true →
  run_process w (git_argv path "rev-parse --abbrev-ref HEAD")
    = run_process w' (git_argv path "rev-parse --abbrev-ref HEAD") →
  run_process w (git_argv path "remote get-url origin")
    = run_process w' (git_argv path "remote get-url origin") →
  run_process w (git_argv path "status --porcelain")
    = run_process w' (git_argv path "status --porcelain") →
  value_of (get_git_info w path) = value_of (get_git_info w' path)
  ∧ EvExec (git_argv path "log -1 --format=%cd") ∈ trace_of (get_git_info w path)
  ∧ EvExec (git_argv path "log -1 --format=%cd") ∈ trace_of (get_git_info w' path).
Proof.
  intros Hm Hm' Hb Hr Hs. unfold value_of, trace_of.
  rewrite (get_git_info_repo w path [] Hm), (get_git_info_repo w' path [] Hm').
  cbn [fst snd app probe_queries]. unfold git_text. rewrite Hb, Hr, Hs.
  split; [reflexivity|].
  split; do 4 apply list_elem_of_further; apply list_elem_of_here.
Qed.

Lemma last_commit_query_is_discarded_witness :
  run_process work_world (git_argv "/work/a" "log -1 --format=%cd")
    ≠ run_process logged_world (git_argv "/work/a" "log -1 --format=%cd")
  ∧ value_of (get_git_info work_world "/work/a")
    = value_of (get_git_info logged_world "/work/a").
Proof.
  split; [vm_compute; discriminate|].
  apply (last_commit_query_is_discarded work_world logged_world "/work/a");
    reflexivity.
Defined.

(** ** Scan Projects and what else goes on *)

Lemma run_in_app (w : World) (l1 l2 : list action) :
  ∀ s, run_in w (l1 ++ l2) s = run_in w l1 s ≫= run_in w l2.
Proof.
  induction l1 as [|act l1 IH]; intros s; [reflexivity|].
  change ((act :: l1) ++ l2) with (act :: (l1 ++ l2)). rewrite !run_in_cons.
  destruct (step w act s) as [s1|]; [|reflexivity]. cbn. apply IH.
Qed.

(** X14: Scan Projects pressed twice before either worker has run shows
    every project twice. Both presses clear the table and both workers
    append: with the second worker run to its end and then the first, the
    table holds the rows of the root's directories and then the same
    again. *)
Theorem second_scan_in_flight_doubles_rows
    (w : World) (s : State) (names : list string) :
  path_exists w (PyStr.strip (root_input (app s))) = true →
  listdir w (PyStr.strip (root_input (app s))) = Ok names →
  ∃ s' news1 news2,
    run_in w (ClickScan :: ClickScan
                :: repeat (Run (S (length (pool s))))
                     (3 + length (child_directories w
                                    (PyStr.strip (root_input (app s))) names))
                ++ repeat (Run (length (pool s)))
                     (3 + length (child_directories w
                                    (PyStr.strip (root_input (app s))) names))) s
      = Some s'
    ∧ pool s' = pool s
    ∧ rows (app s') = news1 ++ news2
    ∧ Forall2 (λ c r', dict_path (info r') = Ok c
                       ∧ value_of (get_git_info w c) = Ok (info r')
                       ∧ level r' = 0)
        (child_directories w (PyStr.strip (root_input (app s))) names) news1
    ∧ Forall2 (λ c r', dict_path (info r') = Ok c
                       ∧ value_of (get_git_info w c) = Ok (info r')
                       ∧ level r' = 0)
        (child_directories w (PyStr.strip (root_input (app s))) names) news2.
Proof.
  intros He Hl. destruct s as [a pl tr]. cbn [app pool trace] in *.
  set (root := PyStr.strip (root_input a)) in *.
  set (n := 3 + length (child_directories w root names)).
  set (tr2 := ((((tr ++ [EvExists root]) ++ [EvThreadStart (TSeed root)])
                  ++ [EvExists root]) ++ [EvThreadStart (TSeed root)])).
  destruct (seed_worker_run w root names (pl ++ [SeedBegin root])
              (set_rows (set_rows a []) []) tr2 Hl)
    as (s1 & news1 & Hrun1 & Hpool1 & Hrows1 & Hnews1 & _).
  destruct s1 as [a1 p1 t1]. cbn [app pool trace] in *. subst p1.
  destruct (seed_worker_run w root names pl a1 t1 Hl)
    as (s' & news2 & Hrun2 & Hpool2 & Hrows2 & Hnews2 & _).
  exists s', news1, news2.
  split; [|split; [exact Hpool2|split; [|by split]]].
  - rewrite run_in_cons. cbn [step]. unfold scan_projects at 1, os_path_exists.
    rewrite bind_run. unfold emit. cbn [fst snd app pool trace set_rows root_input].
    rewrite ret_run. fold root. rewrite He. cbn [mbind option_bind].
    rewrite run_in_cons. cbn [step]. unfold scan_projects, os_path_exists.
    rewrite bind_run. unfold emit. cbn [fst snd app pool trace set_rows root_input].
    rewrite ret_run. fold root. rewrite He. cbn [mbind option_bind].
    rewrite run_in_app.
    assert (Hlen : S (length pl) = length (pl ++ [SeedBegin root]))
      by (rewrite length_app; cbn [length]; lia).
    rewrite Hlen. fold n tr2. fold n in Hrun1, Hrun2.
    rewrite Hrun1. cbn [mbind option_bind]. exact Hrun2.
  - rewrite Hrows2, Hrows1. reflexivity.
Qed.

Lemma second_scan_in_flight_doubles_rows_witness :
  ∃ s', run_in work_world
          (ClickScan :: ClickScan :: repeat (Run 1) 6 ++ repeat (Run 0) 6) seeded
        = Some s'
        ∧ length (rows (app s')) = 6.
Proof.
  destruct (second_scan_in_flight_doubles_rows work_world seeded
              ["a"; "notes.txt"; "b"; "c"] eq_refl eq_refl)
    as (s' & news1 & news2 & Hrun & _ & Hrows & H1 & H2).
  exists s'. split; [exact Hrun|].
  rewrite Hrows, length_app.
  rewrite <- (Forall2_length _ _ _ H1), <- (Forall2_length _ _ _ H2).
  reflexivity.
Defined.

(** X15: the root is read when Scan Projects is pressed. An edit of the
    Root Folder field made after the press, before the worker has run,
    changes the field and nothing else: the worker lists the root the
    field held at the press. *)
Theorem root_is_read_at_the_press
    (w : World) (s : State) (names : list string) (v : string) :
  path_exists w (PyStr.strip (root_input (app s))) = true →
  listdir w (PyStr.strip (root_input (app s))) = Ok names →
  ∃ s',
    run_in w (ClickScan :: TypeRoot v
                :: repeat (Run (length (pool s)))
                     (3 + length (child_directories w
                                    (PyStr.strip (root_input (app s))) names))) s
      = Some s'
    ∧ root_input (app s') = v
    ∧ Forall2 (λ c r', dict_path (info r') = Ok c
                       ∧ value_of (get_git_info w c) = Ok (info r')
                       ∧ level r' = 0)
        (child_directories w (PyStr.strip (root_input (app s))) names)
        (rows (app s')).
Proof.
  intros He Hl. destruct s as [a pl tr]. cbn [app pool trace] in *.
  set (root := PyStr.strip (root_input a)) in *.
  destruct (seed_worker_run w root names pl (set_root_input (set_rows a []) v)
              ((tr ++ [EvExists root]) ++ [EvThreadStart (TSeed root)]) Hl)
    as (s' & news & Hrun & _ & Hrows & Hnews & Hroot & _).
  exists s'. split; [|split; [exact Hroot|]].
  - rewrite run_in_cons. cbn [step]. unfold scan_projects, os_path_exists.
    rewrite bind_run. unfold emit. cbn [fst snd app pool trace set_rows root_input].
    rewrite ret_run. fold root. rewrite He. cbn [mbind option_bind].
    rewrite run_in_cons. cbn [step app pool trace mbind option_bind]. exact Hrun.
  - rewrite Hrows. exact Hnews.
Qed.

Lemma root_is_read_at_the_press_witness :
  ∃ s', run_in work_world
          (ClickScan :: TypeRoot "/nonexistent" :: repeat (Run 0) 6) seeded
        = Some s'
        ∧ root_input (app s') = "/nonexistent"
        ∧ length (rows (app s')) = 3.
Proof.
  destruct (root_is_read_at_the_press work_world seeded
              ["a"; "notes.txt"; "b"; "c"] "/nonexistent" eq_refl eq_refl)
    as (s' & Hrun & Hroot & Hrows).
  exists s'. split; [exact Hrun|]. split; [exact Hroot|].
  by rewrite <- (Forall2_length _ _ _ Hrows).
Defined.

(** ** An expansion, run to its end *)

(** The loop of [rescan_folder]'s task ends by hiding the progress bar and
    naming the directory in the status, however many rows it inserts. *)
Lemma rescan_loop_status (w : World) (d : dict) (p : string) (pl : list thread)
    (todo : list dict) :
  dict_path d = Ok p →
  ∀ (a : App) (k : nat) (tr : list event) (s' : State),
    run_in w (repeat (Run (length pl)) (S (length todo)))
      {| app := a; pool := pl ++ [RescanInsert d k todo]; trace := tr |} = Some s' →
    progress_visible (app s') = false
    ∧ status_value (app s') = String.append "✅ Finished " (OsPath.basename p)
    ∧ root_input (app s') = root_input a.
Proof.
  intros Hp. induction todo as [|sub rest IH]; intros a k tr s' Hrun.
  - cbn [length repeat] in Hrun. rewrite run_in_cons, step_run_last in Hrun.
    cbn [thread_step] in Hrun. rewrite Hp in Hrun. cbn in Hrun.
    by injection Hrun as <-.
  - cbn [length repeat] in Hrun. rewrite run_in_cons, step_run_last in Hrun.
    cbn [thread_step] in Hrun.
    destruct (FolderRow_init (next_id a) sub 1) as [r|e].
    + cbn [mbind option_bind] in Hrun. apply IH in Hrun. exact Hrun.
    + cbn [mbind option_bind] in Hrun. rewrite run_in_cons in Hrun.
      cbn [step pool] in Hrun. rewrite lookup_ge_None_2 in Hrun by done.
      discriminate Hrun.
Qed.

(** X16: an expansion of a row whose directory can be listed, run without
    interruption, ends with the progress bar hidden and the status
    "Finished <name>", [name] being the base name of the row's path; the
    table has grown by one row per directory-type entry and the Root
    Folder field is untouched. *)
Theorem expansion_ends_with_finished_status
    (w : World) (s : State) (i : nat) (r : FolderRow) (p : string)
    (names : list string) :
  rows (app s) !! i = Some r →
  index_of (row_id r) (rows (app s)) = Some i →
  dict_path (info r) = Ok p →
  listdir w p = Ok names →
  ∃ s',
    run_in w (ClickRescan i
                :: repeat (Run (length (pool s)))
                     (4 + length (child_directories w p names))) s = Some s'
    ∧ pool s' = pool s
    ∧ progress_visible (app s') = false
    ∧ status_value (app s') = String.append "✅ Finished " (OsPath.basename p)
    ∧ root_input (app s') = root_input (app s)
    ∧ length (rows (app s'))
      = length (rows (app s)) + length (child_directories w p names).
Proof.
  intros Hrow Hidx Hp Hl.
  destruct (rescan_splices w s i r p names Hrow Hidx Hp Hl)
    as (s' & news & Hrun & Hpool & Hrows & Hnews).
  exists s'. split; [exact Hrun|]. split; [exact Hpool|].
  assert (Hlen : length (rows (app s'))
                 = length (rows (app s)) + length (child_directories w p names)).
  { rewrite Hrows, !length_app, (Forall2_length _ _ _ Hnews).
    rewrite <- (take_drop (S i) (rows (app s))) at 3. rewrite length_app. lia. }
  destruct s as [a pl tr]. cbn [app pool trace] in *.
  destruct (scan_top_level_run w p names (tr ++ [EvThreadStart (TRescan (info r))]) Hl)
    as (infos & tr' & Hscan & Hall & _ & _).
  rewrite (Forall2_length _ _ _ Hall) in Hrun.
  rewrite run_in_cons in Hrun. cbn [step app rows] in Hrun. rewrite Hrow in Hrun.
  cbn [mbind option_bind] in Hrun.
  unfold rescan_folder in Hrun. cbn [app pool trace repeat Nat.add] in Hrun.
  rewrite run_in_cons, step_run_last in Hrun. cbn [thread_step] in Hrun.
  rewrite Hp in Hrun. cbn [mbind option_bind] in Hrun.
  rewrite run_in_cons, step_run_last in Hrun. cbn [thread_step] in Hrun.
  rewrite Hp, Hscan in Hrun. cbn [mbind option_bind] in Hrun.
  rewrite run_in_cons, step_run_last in Hrun. cbn [thread_step] in Hrun.
  change (rows (set_status (set_progress a true) _)) with (rows a) in Hrun.
  rewrite Hidx in Hrun. cbn [mbind option_bind] in Hrun.
  destruct (rescan_loop_status w (info r) p pl infos Hp _ _ _ _ Hrun)
    as (Hprog & Hstat & Hroot).
  split; [exact Hprog|]. split; [exact Hstat|]. split; [exact Hroot|exact Hlen].
Qed.

Lemma expansion_ends_with_finished_status_witness :
  ∃ s', run_in work_world (ClickRescan 0 :: repeat (Run 0) 6) seeded = Some s'
        ∧ status_value (app s') = "✅ Finished a"
        ∧ length (rows (app s')) = 5.
Proof.
  destruct seeded_first_row as (r & Hr & Hp & Hlen).
  assert (Hidx : index_of (row_id r) (rows (app seeded)) = Some 0).
  { eapply reachable_row_found; [exact seed_session_run|exact Hr]. }
  destruct (expansion_ends_with_finished_status work_world seeded 0 r "/work/a"
              [".git"; "x"] Hr Hidx Hp eq_refl)
    as (s' & Hrun & _ & _ & Hstat & _ & Hrows).
  exists s'. split; [exact Hrun|]. split; [exact Hstat|].
  rewrite Hrows, Hlen. reflexivity.
Defined.

(** ** What the cells show *)

Lemma probe_result_shape (w : World) (p : string) (d : dict) :
  value_of (get_git_info w p) = Ok d →
  d !! "has_subfolders" = None
  ∧ (path_exists w (OsPath.join p ".git") = false →
     d !! "branch" = None ∧ d !! "remote" = None ∧ d !! "dirty" = None)
  ∧ (path_exists w (OsPath.join p ".git") = true →
     d !! "dirty"
     = Some (VStr (if negb (truthy (git_text w p "status --porcelain"))
                   then "Clean" else "Dirty"))).
Proof.
  unfold value_of. intros Hv.
  destruct (path_exists w (OsPath.join p ".git")) eqn:Hm.
  - rewrite (get_git_info_repo w p [] Hm) in Hv. injection Hv as <-.
    split; [reflexivity|]. split; [discriminate|]. intros _. reflexivity.
  - rewrite (get_git_info_plain w p [] Hm) in Hv. injection Hv as <-.
    split; [reflexivity|]. split; [|discriminate]. intros _. by repeat split.
Qed.

(** X17: every row shows its arrow. No dictionary that reaches a row has
    a [has_subfolders] entry, so [info.get("has_subfolders", True)] is
    [True] on every row of every reachable table, also on the row of a
    directory without subdirectories. *)
Theorem expand_arrow_is_always_visible
    (acts : list (World * action)) (s : State) (r : FolderRow) :
  run acts initial = Some s →
  r ∈ rows (app s) →
  arrow_visible (info r) = VBool true.
Proof.
  intros Hrun Hr. destruct (reachable_sound acts s Hrun) as [Hrows _].
  rewrite Forall_forall in Hrows.
  destruct (Hrows r Hr) as (w & p & _ & Hv & _).
  destruct (probe_result_shape w p (info r) Hv) as [Hnone _].
  unfold arrow_visible, dict_get. by rewrite Hnone.
Qed.

Lemma expand_arrow_is_always_visible_witness :
  ∃ r, rows (app seeded) !! 2 = Some r
       ∧ dict_path (info r) = Ok "/work/c"
       ∧ listdir work_world "/work/c" = Ok []
       ∧ arrow_visible (info r) = VBool true.
Proof.
  assert (H : ∃ r, rows (app seeded) !! 2 = Some r
                   ∧ dict_path (info r) = Ok "/work/c")
    by (vm_compute; eexists; split; reflexivity).
  destruct H as (r & Hr & Hp). exists r.
  split; [exact Hr|]. split; [exact Hp|]. split; [reflexivity|].
  apply (expand_arrow_is_always_visible _ seeded r seed_session_run).
  eapply list_elem_of_lookup_2, Hr.
Defined.

(** X18: the Status cell is green for a repository whose status query
    gave no text or failed and red in every other case, the row of a
    plain directory included: its Branch, Remote and Status cells are
    empty, and the empty Status cell is red. *)
Theorem status_cell_of_a_probe_result (w : World) (p : string) (d : dict) :
  value_of (get_git_info w p) = Ok d →
  (dirty_color d = "green" ∨ dirty_color d = "red")
  ∧ (dirty_color d = "green"
     ↔ path_exists w (OsPath.join p ".git") = true
       ∧ truthy (git_text w p "status --porcelain") = false)
  ∧ (dirty_color d = "green" ↔ dirty_text d = VStr "Clean")
  ∧ (path_exists w (OsPath.join p ".git") = false →
     branch_text d = VStr "" ∧ remote_text d = VStr "" ∧ dirty_text d = VStr ""
     ∧ dirty_color d = "red").
Proof.
  intros Hv. destruct (probe_result_shape w p d Hv) as (_ & Hplain & Hrepo).
  unfold dirty_color, dirty_text, branch_text, remote_text, dict_get.
  destruct (path_exists w (OsPath.join p ".git")) eqn:Hm.
  - rewrite (Hrepo eq_refl).
    destruct (truthy (git_text w p "status --porcelain")); cbn.
    + split; [by right|]. split; [split; [discriminate|by intros [_ ?]]|].
      split; [split; discriminate|discriminate].
    + split; [by left|]. split; [by split|]. split; [by split|discriminate].
  - destruct (Hplain eq_refl) as (Hb & Hr & Hd). rewrite Hb, Hr, Hd. cbn.
    split; [by right|]. split; [split; [discriminate|by intros [? _]]|].
    split; [split; discriminate|]. intros _. by repeat split.
Qed.

Lemma status_cell_of_a_probe_result_witness :
  ∃ d, value_of (get_git_info work_world "/work/c") = Ok d
       ∧ dirty_text d = VStr "" ∧ dirty_color d = "red".
Proof.
  assert (H : ∃ d, value_of (get_git_info work_world "/work/c") = Ok d).
  { eexists. unfold value_of.
    by rewrite (get_git_info_plain work_world "/work/c" [] eq_refl). }
  destruct H as [d Hd]. exists d. split; [exact Hd|].
  destruct (status_cell_of_a_probe_result work_world "/work/c" d Hd)
    as (_ & _ & _ & Hplain).
  destruct (Hplain eq_refl) as (_ & _ & Ht & Hc). by split.
Defined.
